(** * Quantum-token payment protocol: the MAC, the qubit layer and the three roles

    A shallow embedding of [app.py] (the programs of the Issuer/TTP, the
    Holder/Client and the Verifier/Merchant) and of the constants of [sim.py],
    with the properties of the protocol's specification stated and settled on
    that embedding.

    Conventions.
    - A Python [str] is the list of its code points ([pystr]); a [bytes] value
      is a list of numbers below 256.
    - A dictionary with arbitrary keys ([client_database], [token_storage]) is
      a [gmap]; the message dictionaries, whose keys are fixed literals, are
      records.
    - A Python exception is a value of [exn]; a computation that may raise
      returns a [result].
    - [print] statements and [ns.sim_time()] are not modelled. *)

From Stdlib Require Import NArith ZArith QArith List Ascii String Lia Bool.
From stdpp Require Import gmap list fin_maps.
Import ListNotations.

#[local] Open Scope N_scope.

(** ** [hashlib.sha256] (FIPS 180-4), on lists of byte values *)

Module SHA256.

(** 32-bit words are numbers of [N] with the wrap-around written out. *)
Definition wrap32 (x : N) : N := x mod 2 ^ 32.
Definition add32 (x y : N) : N := wrap32 (x + y).
Definition not32 (x : N) : N := N.lxor x 0xFFFFFFFF.
Definition rotr (n x : N) : N :=
  N.lor (N.shiftr x n) (wrap32 (N.shiftl x (32 - n))).

Definition Ch (x y z : N) : N := N.lxor (N.land x y) (N.land (not32 x) z).
Definition Maj (x y z : N) : N :=
  N.lxor (N.lxor (N.land x y) (N.land x z)) (N.land y z).
Definition bsig0 (x : N) : N := N.lxor (N.lxor (rotr 2 x) (rotr 13 x)) (rotr 22 x).
Definition bsig1 (x : N) : N := N.lxor (N.lxor (rotr 6 x) (rotr 11 x)) (rotr 25 x).
Definition ssig0 (x : N) : N := N.lxor (N.lxor (rotr 7 x) (rotr 18 x)) (N.shiftr x 3).
Definition ssig1 (x : N) : N := N.lxor (N.lxor (rotr 17 x) (rotr 19 x)) (N.shiftr x 10).

(** The constants are the first 32 bits of the fractional parts of the
    square roots (initial hash value) and cube roots (round constants) of
    the first primes. *)
Definition primes64 : list N :=
  [2; 3; 5; 7; 11; 13; 17; 19; 23; 29; 31; 37; 41; 43; 47; 53;
   59; 61; 67; 71; 73; 79; 83; 89; 97; 101; 103; 107; 109; 113; 127; 131;
   137; 139; 149; 151; 157; 163; 167; 173; 179; 181; 191; 193; 197; 199; 211; 223;
   227; 229; 233; 239; 241; 251; 257; 263; 269; 271; 277; 281; 283; 293; 307; 311].

(** Largest [r] below [2 ^ bits] with [r ^ 3 <= x], one bit at a time. *)
Fixpoint cbrt_bits (bits : nat) (x r : N) : N :=
  match bits with
  | O => r
  | S b =>
      let r' := r + 2 ^ N.of_nat b in
      cbrt_bits b x (if r' * r' * r' <=? x then r' else r)
  end.

Definition frac_sqrt32 (p : N) : N := wrap32 (N.sqrt (p * 2 ^ 64)).
Definition frac_cbrt32 (p : N) : N := wrap32 (cbrt_bits 36 (p * 2 ^ 96) 0).

Definition H0 : list N := Eval vm_compute in map frac_sqrt32 (firstn 8 primes64).
Definition K : list N := Eval vm_compute in map frac_cbrt32 primes64.

(** The eight working variables / the intermediate hash value. *)
Record regs : Type := Regs { ra : N; rb : N; rc : N; rd : N; re : N; rf : N; rg : N; rh : N }.

Definition init : regs :=
  Regs (nth 0 H0 0) (nth 1 H0 0) (nth 2 H0 0) (nth 3 H0 0)
       (nth 4 H0 0) (nth 5 H0 0) (nth 6 H0 0) (nth 7 H0 0).

(** Padding: the bit 1, zero bits up to 448 mod 512, the length in 64 bits. *)
Definition be_bytes (n : nat) (x : N) : list N :=
  map (fun i => N.land (N.shiftr x (8 * N.of_nat i)) 0xFF) (rev (seq 0 n)).

Definition pad (msg : list N) : list N :=
  let len := N.of_nat (length msg) in
  let zeros := N.to_nat ((119 - len mod 64) mod 64) in
  msg ++ 0x80 :: repeat 0 zeros ++ be_bytes 8 (8 * len).

Fixpoint be_word (bs : list N) (acc : N) : N :=
  match bs with
  | [] => acc
  | b :: bs' => be_word bs' (N.lor (N.shiftl acc 8) b)
  end.

(** The sixteen words of the block that starts at byte [64 * i]. *)
Definition block_words (bytes : list N) (i : nat) : list N :=
  map (fun t => be_word (firstn 4 (skipn (64 * i + 4 * t) bytes)) 0) (seq 0 16).

(** Message schedule, kept newest first while it is extended. *)
Fixpoint extend (n : nat) (rw : list N) : list N :=
  match n with
  | O => rw
  | S n' =>
      let w := add32 (add32 (ssig1 (nth 1 rw 0)) (nth 6 rw 0))
                     (add32 (ssig0 (nth 14 rw 0)) (nth 15 rw 0)) in
      extend n' (w :: rw)
  end.

Definition schedule (block : list N) : list N := rev (extend 48 (rev block)).

Definition round (s : regs) (kw : N * N) : regs :=
  let t1 := add32 (add32 (add32 (rh s) (bsig1 (re s))) (Ch (re s) (rf s) (rg s)))
                  (add32 (fst kw) (snd kw)) in
  let t2 := add32 (bsig0 (ra s)) (Maj (ra s) (rb s) (rc s)) in
  Regs (add32 t1 t2) (ra s) (rb s) (rc s) (add32 (rd s) t1) (re s) (rf s) (rg s).

Definition compress (h : regs) (block : list N) : regs :=
  let s := fold_left round (combine K (schedule block)) h in
  Regs (add32 (ra h) (ra s)) (add32 (rb h) (rb s)) (add32 (rc h) (rc s))
       (add32 (rd h) (rd s)) (add32 (re h) (re s)) (add32 (rf h) (rf s))
       (add32 (rg h) (rg s)) (add32 (rh h) (rh s)).

Definition hash_regs (msg : list N) : regs :=
  let bytes := pad msg in
  fold_left (fun h i => compress h (block_words bytes i))
            (seq 0 (length bytes / 64)) init.

(** [hashlib.sha256(msg).digest()]: the eight words, big-endian. *)
Definition digest (msg : list N) : list N :=
  let h := hash_regs msg in
  be_bytes 4 (ra h) ++ be_bytes 4 (rb h) ++ be_bytes 4 (rc h) ++ be_bytes 4 (rd h) ++
  be_bytes 4 (re h) ++ be_bytes 4 (rf h) ++ be_bytes 4 (rg h) ++ be_bytes 4 (rh h).

End SHA256.

(** ** Python values: strings, exceptions, results *)

(** A [str] is the list of its code points; [s[j]] is [s !! j]. *)
Abbreviation pystr := (list N).

Definition str (s : string) : pystr := map N_of_ascii (list_ascii_of_string s).

Definition ch0 : N := 48.  (* the character '0' *)
Definition ch1 : N := 49.  (* the character '1' *)

(** [str(k)] for an integer [k] that is 0 ([false]) or 1 ([true]). *)
Definition str_of_bit (k : bool) : N := if k then ch1 else ch0.

Inductive exn : Type :=
| KeyError (key : pystr)      (* a dictionary has no such key *)
| IndexError                  (* string or list index out of range *)
| UnicodeEncodeError.         (* [str.encode] met a code point UTF-8 cannot encode *)

Inductive result (A : Type) : Type :=
| Ok (a : A)
| Raise (e : exn).
Arguments Ok {A} a.
Arguments Raise {A} e.

Definition bind {A B : Type} (r : result A) (k : A -> result B) : result B :=
  match r with
  | Ok a => k a
  | Raise e => Raise e
  end.

Declare Scope py_scope.
Delimit Scope py_scope with py.
Notation "x <- c ;; k" := (bind c (fun x => k))
  (at level 100, c at next level, right associativity) : py_scope.
#[local] Open Scope py_scope.

(** [s[j]] for [j >= 0]. *)
Definition index {A : Type} (s : list A) (j : nat) : result A :=
  match s !! j with
  | Some c => Ok c
  | None => Raise IndexError
  end.

(** [for j in range(n)] with an accumulator; the first exception ends the loop. *)
Fixpoint for_in {A : Type} (js : list nat) (body : A -> nat -> result A) (acc : A)
  : result A :=
  match js with
  | [] => Ok acc
  | j :: js' => acc' <- body acc j ;; for_in js' body acc'
  end.

Definition range (n : nat) : list nat := seq 0 n.

(** [str.encode()]: UTF-8, strict. Surrogate code points cannot be encoded;
    numbers from [0x110000] on are no code points at all. *)
Definition utf8_char (c : N) : result (list N) :=
  if c <? 0x80 then Ok [c]
  else if c <? 0x800 then
    Ok [N.lor 0xC0 (N.shiftr c 6); N.lor 0x80 (N.land c 0x3F)]
  else if c <? 0x10000 then
    if (0xD800 <=? c) && (c <=? 0xDFFF) then Raise UnicodeEncodeError
    else Ok [N.lor 0xE0 (N.shiftr c 12);
             N.lor 0x80 (N.land (N.shiftr c 6) 0x3F);
             N.lor 0x80 (N.land c 0x3F)]
  else if c <? 0x110000 then
    Ok [N.lor 0xF0 (N.shiftr c 18);
        N.lor 0x80 (N.land (N.shiftr c 12) 0x3F);
        N.lor 0x80 (N.land (N.shiftr c 6) 0x3F);
        N.lor 0x80 (N.land c 0x3F)]
  else Raise UnicodeEncodeError.

Fixpoint encode (s : pystr) : result (list N) :=
  match s with
  | [] => Ok []
  | c :: s' => bs <- utf8_char c ;; rest <- encode s' ;; Ok (bs ++ rest)
  end.

(** [format(n, 'b')]: the binary digits, most significant first. *)
Definition bin (n : N) : pystr :=
  if n =? 0 then [ch0]
  else map (fun i => if N.testbit n (N.of_nat i) then ch1 else ch0)
           (rev (seq 0 (N.to_nat (N.size n)))).

(** [format(n, '08b')]: zero-padded on the left to a width of 8. *)
Definition format_08b (n : N) : pystr :=
  let ds := bin n in repeat ch0 (8 - length ds) ++ ds.

(** ** [app.py] *)

(** Security parameter - length of quantum token *)
Definition LAMBDA : nat := 8.

(** [mac(secret, message)], lines 10-20. *)
Definition mac (secret message : pystr) : result pystr :=
  let combined := secret ++ message in
  encoded <- encode combined ;;
  let hash_bytes := SHA256.digest encoded in
  let binary := concat (map format_08b hash_bytes) in
  Ok (firstn LAMBDA binary).

(** *** The qubits of the NetQASM connection

    One qubit with real amplitudes is [(amp0 |0> + amp1 |1>) / sqrt 2 ^ halvings]:
    the gates the programs use (X, H, Z) keep the amplitudes integers once the
    factor [1 / sqrt 2] of each H is counted apart. A measurement in the
    computational basis gives outcome [r] with probability
    [amp_r ^ 2 / (amp0 ^ 2 + amp1 ^ 2)]; [coin] is the simulator's draw, used
    only when both outcomes have a positive probability. *)
Module Qubit.

Record state : Type := State { amp0 : BinNums.Z; amp1 : BinNums.Z; halvings : nat }.

(** [Qubit(connection)]: a fresh qubit is |0>. *)
Definition new : state := State 1 0 0.

(** [q.X()] exchanges the two amplitudes. *)
Definition X (q : state) : state := State (amp1 q) (amp0 q) (halvings q).

(** [q.H()] maps |0> to (|0> + |1>) / sqrt 2 and |1> to (|0> - |1>) / sqrt 2. *)
Definition H (q : state) : state :=
  State (amp0 q + amp1 q) (amp0 q - amp1 q) (S (halvings q)).

Definition weight (q : state) (r : bool) : BinNums.Z :=
  (if r then amp1 q * amp1 q else amp0 q * amp0 q)%Z.

(** Probability that measuring [q] gives [r]. *)
Definition prob (q : state) (r : bool) : Q :=
  Qred (Qmake (weight q r) (Z.to_pos (weight q false + weight q true))).

(** [q.measure()]: the outcome and the collapsed state. *)
Definition measure (q : state) (coin : bool) : bool * state :=
  let r := if (amp1 q =? 0)%Z then false
           else if (amp0 q =? 0)%Z then true
           else coin in
  (r, if r then State 0 1 0 else State 1 0 0).

(** [q.Z()] changes the sign of the amplitude of |1>. *)
Definition Z (q : state) : state := State (amp0 q) (- amp1 q) (halvings q).

End Qubit.

(** *** Messages *)

(** [{"b": b, "B": B}]: the stored token and the Issuer -> Holder message. *)
Record token : Type := Token { tok_b : pystr; tok_B : pystr }.

(** [{"client_id": ..., "kappa": ...}] *)
Record payment : Type := Payment { pay_client_id : pystr; pay_kappa : pystr }.

(** [{"client_id": ..., "kappa": ..., "merchant_id": ...}] *)
Record verification : Type :=
  Verification { ver_client_id : pystr; ver_kappa : pystr; ver_merchant_id : pystr }.

(** [{"accepted": payment_accepted}] *)
Record verdict : Type := Verdict { accepted : bool }.

(** *** [ClientProgram] *)
Module ClientProgram.

Record self : Type :=
  Self { client_id : pystr; secret_token : pystr; merchant_id : pystr }.

(** Lines 194-202: the gates applied to a fresh qubit for the characters
    [b[j]] and [B[j]]. *)
Definition prepare_qubit (bj Bj : N) : Qubit.state :=
  let q := Qubit.new in
  if Bj =? ch0 then            (* Computational basis *)
    if bj =? ch1 then Qubit.X q else q
  else                         (* Hadamard basis *)
    let q := Qubit.H q in
    if bj =? ch1 then Qubit.Z q else q.

Definition prepare (b B : pystr) (j : nat) : result Qubit.state :=
  Bj <- index B j ;;
  bj <- index b j ;;
  Ok (prepare_qubit bj Bj).

(** Lines 222-226: the H gate that turns a Hadamard-basis measurement into
    a computational one, and the measurement. *)
Definition measure_basis (mj : N) (q : Qubit.state) : Qubit.state :=
  if mj =? ch1 then Qubit.H q else q.

Definition measure_qubit (mj : N) (q : Qubit.state) (coin : bool) : bool :=
  fst (Qubit.measure (measure_basis mj q) coin).

Definition measure (m : pystr) (qubits : list Qubit.state) (coins : nat -> bool)
    (j : nat) : result bool :=
  q <- index qubits j ;;
  mj <- index m j ;;
  Ok (measure_qubit mj q (coins j)).

(** [run], lines 183-245; [token_info] is the message received from the
    TTP, [coins] the simulator's draws. Returns the message sent to the
    Merchant and the returned [m]. *)
Definition run (s : self) (token_info : token) (coins : nat -> bool)
  : result (payment * pystr) :=
  let b := tok_b token_info in
  let B := tok_B token_info in
  qubits <- for_in (range LAMBDA)
              (fun qubits j => q <- prepare b B j ;; Ok (qubits ++ [q])) [] ;;
  m <- mac (secret_token s) (merchant_id s) ;;
  kappa <- for_in (range LAMBDA)
              (fun kappa j => r <- measure m qubits coins j ;; Ok (kappa ++ [r])) [] ;;
  let kappa_str := map str_of_bit kappa in
  let payment_data := Payment (client_id s) kappa_str in
  Ok (payment_data, m).

End ClientProgram.

(** *** [MerchantProgram] *)
Module MerchantProgram.

Definition MERCHANT_ID : pystr := str "merchant_shop_xyz".

(** Lines 269-285: the request forwarded to the TTP. *)
Definition forward (payment_data : payment) : verification :=
  Verification (pay_client_id payment_data) (pay_kappa payment_data) MERCHANT_ID.

(** Lines 288-295: the verdict of the TTP is reported as it is. *)
Definition report (result : verdict) : verdict := Verdict (accepted result).

End MerchantProgram.

(** *** [TTPProgram] *)
Module TTPProgram.

(** The instance's two dictionaries, and the messages sent so far on the
    sockets to the Client and to the Merchant (oldest first). *)
Record state : Type := State {
  client_database : gmap pystr pystr;
  token_storage : gmap pystr token;
  sent_client : list token;
  sent_merchant : list verdict
}.

(** [__init__], lines 33-40. *)
Definition init : state :=
  State {[ str "client_alice" := str "secret_token_abc123" ]} ∅ [] [].

(** State and exception monad: an exception keeps the state reached. *)
Definition M (A : Type) : Type := state -> result A * state.

Definition ret {A : Type} (a : A) : M A := fun s => (Ok a, s).

Definition mbind {A B : Type} (c : M A) (k : A -> M B) : M B :=
  fun s =>
    match c s with
    | (Ok a, s') => k a s'
    | (Raise e, s') => (Raise e, s')
    end.

Definition lift {A : Type} (r : result A) : M A := fun s => (r, s).

Declare Scope ttp_scope.
Notation "x <- c ;; k" := (mbind c (fun x => k))
  (at level 100, c at next level, right associativity) : ttp_scope.
#[local] Open Scope ttp_scope.

(** [self.client_database[key]] and [self.token_storage[key]] *)
Definition get_secret (key : pystr) : M pystr :=
  fun s =>
    (match client_database s !! key with
     | Some v => Ok v
     | None => Raise (KeyError key)
     end, s).

Definition get_token (key : pystr) : M token :=
  fun s =>
    (match token_storage s !! key with
     | Some v => Ok v
     | None => Raise (KeyError key)
     end, s).

(** [self.token_storage[key] = t] *)
Definition set_token (key : pystr) (t : token) : M unit :=
  fun s =>
    (Ok tt, State (client_database s) (<[key := t]> (token_storage s))
                  (sent_client s) (sent_merchant s)).

(** [csocket_client.send(t)] and [csocket_merchant.send(v)] *)
Definition send_client (t : token) : M unit :=
  fun s =>
    (Ok tt, State (client_database s) (token_storage s)
                  (sent_client s ++ [t]) (sent_merchant s)).

Definition send_merchant (v : verdict) : M unit :=
  fun s =>
    (Ok tt, State (client_database s) (token_storage s)
                  (sent_client s) (sent_merchant s ++ [v])).

(** Lines 59-60: [b] and [B] from the next [2 * LAMBDA] draws of
    [random.randint(0, 1)]. *)
Definition generate (random : nat -> bool) : token :=
  let b := map (fun j => str_of_bit (random j)) (range LAMBDA) in
  let B := map (fun j => str_of_bit (random (LAMBDA + j)%nat)) (range LAMBDA) in
  Token b B.

(** Lines 59-86: generate the token, store it under "client_alice" and
    send it to the Client (lines 72-80 only print the token). *)
Definition issue (random : nat -> bool) : M token :=
  let t := generate random in
  let client_id := str "client_alice" in
  _ <- set_token client_id t ;;
  _ <- send_client t ;;
  ret t.

(** Lines 121-128: one turn of the checking loop on [(matches, total_checked)]. *)
Definition check (m B_original kappa b_original : pystr) (acc : nat * nat) (j : nat)
  : result (nat * nat) :=
  (mj <- index m j ;;
   Bj <- index B_original j ;;
   if mj =? Bj then            (* Matching basis *)
     let total_checked := S (snd acc) in
     kj <- index kappa j ;;
     bj <- index b_original j ;;
     if kj =? bj then Ok (S (fst acc), total_checked)
     else Ok (fst acc, total_checked)
   else Ok acc)%py.

(** Lines 93-144: verify the request and answer the Merchant. *)
Definition verify (verification_msg : verification) : M verdict :=
  let client_id := ver_client_id verification_msg in
  let kappa := ver_kappa verification_msg in
  let merchant_id := ver_merchant_id verification_msg in
  secret_token <- get_secret client_id ;;
  stored_token <- get_token client_id ;;
  let b_original := tok_b stored_token in
  let B_original := tok_B stored_token in
  m <- lift (mac secret_token merchant_id) ;;
  counts <- lift (for_in (range LAMBDA) (check m B_original kappa b_original) (O, O)) ;;
  let matches := fst counts in
  let total_checked := snd counts in
  let payment_accepted := (matches =? total_checked)%nat && (0 <? total_checked)%nat in
  let result := Verdict payment_accepted in
  _ <- send_merchant result ;;
  ret result.

(** What [run] returns: [{"b": b, "B": B, "accepted": payment_accepted}]. *)
Record returned : Type := Returned { ret_b : pystr; ret_B : pystr; ret_accepted : bool }.

(** [run], lines 51-147; [verification_msg] is the message received from
    the Merchant at line 91. *)
Definition run (random : nat -> bool) (verification_msg : verification) : M returned :=
  t <- issue random ;;
  result <- verify verification_msg ;;
  ret (Returned (tok_b t) (tok_B t) (accepted result)).

End TTPProgram.

(** ** The constants of [sim.py] and the composed protocol *)

Definition CLIENT_ID : pystr := str "client_alice".
Definition SECRET_TOKEN : pystr := str "secret_token_abc123".
Definition MERCHANT_ID : pystr := str "merchant_shop_xyz".

Definition client_program : ClientProgram.self :=
  ClientProgram.Self CLIENT_ID SECRET_TOKEN MERCHANT_ID.

(** The draws of [random.randint] that spell the strings [b] and [B]. *)
Definition draws (b B : pystr) (i : nat) : bool :=
  match (b ++ B) !! i with
  | Some c => c =? ch1
  | None => false
  end.

(** One run of the three programs: the TTP issues, the Client measures and
    pays, the Merchant forwards, the TTP verifies. [wire] is what happens to
    the cryptogram on its way to the TTP ([id] when no message is altered).
    The result is the TTP's outcome and its final state. *)
Definition protocol_over (wire : pystr -> pystr) (client : ClientProgram.self)
    (random coins : nat -> bool) (ttp : TTPProgram.state)
  : result verdict * TTPProgram.state :=
  match TTPProgram.issue random ttp with
  | (Ok token_info, ttp1) =>
      match ClientProgram.run client token_info coins with
      | Ok (payment_data, _) =>
          let request := MerchantProgram.forward payment_data in
          TTPProgram.verify
            (Verification (ver_client_id request) (wire (ver_kappa request))
                          (ver_merchant_id request)) ttp1
      | Raise e => (Raise e, ttp1)
      end
  | (Raise e, ttp1) => (Raise e, ttp1)
  end.

Definition protocol := protocol_over id.

(** Flipping the bit at position [j] of a cryptogram. *)
Definition flip (c : N) : N := if c =? ch1 then ch0 else ch1.
Definition flip_at (j : nat) (kappa : pystr) : pystr := alter flip j kappa.

(** ** The verification rule in the words of the specification *)

(** Position [j] is checked when [m[j] == B[j]]. *)
Definition checked (m B : pystr) (j : nat) : bool :=
  match m !! j, B !! j with
  | Some mj, Some Bj => mj =? Bj
  | _, _ => false
  end.

(** A position counts as a match when [kappa[j] == b[j]]. *)
Definition agrees (kappa b : pystr) (j : nat) : bool :=
  match kappa !! j, b !! j with
  | Some kj, Some bj => kj =? bj
  | _, _ => false
  end.

Definition total_checked (m B : pystr) : nat :=
  length (List.filter (checked m B) (range LAMBDA)).

(** A checked position that is a match. *)
Definition matching (m B kappa b : pystr) (j : nat) : bool :=
  checked m B j && agrees kappa b j.

Definition matches (m B kappa b : pystr) : nat :=
  length (List.filter (matching m B kappa b) (range LAMBDA)).

(** A checked position beyond the end of the cryptogram. *)
Definition overrun (m B kappa : pystr) (j : nat) : bool :=
  checked m B j && (length kappa <=? j)%nat.

(** The state after [v] was sent to the Merchant. *)
Definition answered (v : verdict) (s : TTPProgram.state) : TTPProgram.state :=
  TTPProgram.State (TTPProgram.client_database s) (TTPProgram.token_storage s)
                   (TTPProgram.sent_client s) (TTPProgram.sent_merchant s ++ [v]).

Definition binary (s : pystr) : Prop := Forall (fun c => c = ch0 \/ c = ch1) s.

(** The qubit the Client holds for position [j], the outcome of measuring it
    according to [m[j]], and the cryptogram these outcomes spell. *)
Definition held (b B : pystr) (j : nat) : Qubit.state :=
  ClientProgram.prepare_qubit (nth j b 0) (nth j B 0).

Definition outcome (b B m : pystr) (coins : nat -> bool) (j : nat) : bool :=
  ClientProgram.measure_qubit (nth j m 0) (held b B j) (coins j).

Definition cryptogram (b B m : pystr) (coins : nat -> bool) : pystr :=
  map (fun j => str_of_bit (outcome b B m coins j)) (range LAMBDA).

(** The reference scenario: the token b = 10110010, B = 01101100, the state
    of the TTP once it has issued it, and the request that carries the
    cryptogram of a Client whose undetermined measurements all gave 1. *)
Definition reference_token : token := Token (str "10110010") (str "01101100").

Definition reference_draws : nat -> bool :=
  draws (tok_b reference_token) (tok_B reference_token).

Definition reference_issued : TTPProgram.state :=
  snd (TTPProgram.issue reference_draws TTPProgram.init).

Definition reference_request : verification :=
  Verification CLIENT_ID (str "11111110") MERCHANT_ID.

(** ** Notions for the further properties of the programs *)

(** The code points [str.encode()] accepts: all but the surrogates. *)
Definition encodable (c : N) : bool :=
  (c <? 0xD800) || ((0xDFFF <? c) && (c <? 0x110000)).

(** The eight bits of a byte as characters, most significant first. *)
Definition bits8 (n : N) : pystr :=
  map (fun i => str_of_bit (N.testbit n (N.of_nat (7 - i)))) (range 8).

(** Every stored token has [LAMBDA] bits and [LAMBDA] bases, all '0' or '1'. *)
Definition tokens_well_formed (s : TTPProgram.state) : Prop :=
  forall key t, TTPProgram.token_storage s !! key = Some t ->
    length (tok_b t) = LAMBDA /\ length (tok_B t) = LAMBDA /\
    binary (tok_b t) /\ binary (tok_B t).

(** Position [j] does not betray a Client that measured with [mc] to a TTP
    that checks with [ms]: it is unchecked, or measured in the token's
    basis, or the simulator's draw happened to be the token's bit. *)
Definition passes (ms mc B b : pystr) (coins : nat -> bool) (j : nat) : bool :=
  implb (checked ms B j)
        (checked mc B j || (str_of_bit (coins j) =? nth j b 0)).

(** ** SHA-256 test vectors and the reference scenario *)

Example sha256_empty :
  firstn 4 (SHA256.digest []) = [0xe3; 0xb0; 0xc4; 0x42].
Proof. vm_compute. reflexivity. Qed.

Example sha256_abc :
  SHA256.digest (str "abc") =
  [0xba; 0x78; 0x16; 0xbf; 0x8f; 0x01; 0xcf; 0xea; 0x41; 0x41; 0x40; 0xde; 0x5d; 0xae;
   0x22; 0x23; 0xb0; 0x03; 0x61; 0xa3; 0x96; 0x17; 0x7a; 0x9c; 0xb4; 0x10; 0xff; 0x61;
   0xf2; 0x00; 0x15; 0xad].
Proof. vm_compute. reflexivity. Qed.

(** Messages whose padding ends a block, starts a new one, or spans two. *)
Example sha256_block_boundaries :
  map (fun n => firstn 4 (SHA256.digest (repeat 97 n))) [55; 56; 64; 119; 120]%nat =
  [[159; 67; 144; 248]; [179; 84; 57; 164]; [255; 224; 84; 254];
   [49; 235; 165; 28]; [47; 61; 51; 84]].
Proof. vm_compute. reflexivity. Qed.

Example encode_multibyte :
  encode [0xE9; 0x20AC; 0x1F600] = Ok [195; 169; 226; 130; 172; 240; 159; 152; 128].
Proof. vm_compute. reflexivity. Qed.

Example format_08b_examples :
  map format_08b [5; 255; 0] = [str "00000101"; str "11111111"; str "00000000"].
Proof. vm_compute. reflexivity. Qed.

Example mac_reference : mac SECRET_TOKEN MERCHANT_ID = Ok (str "00110000").
Proof. vm_compute. reflexivity. Qed.

(** The end-to-end scenario: b = 10110010, B = 01101100. *)
Example reference_scenario :
  fst (protocol client_program (draws (str "10110010") (str "01101100"))
         (fun _ => true) TTPProgram.init) = Ok (Verdict true).
Proof. vm_compute. reflexivity. Qed.

(** ** The MAC *)

Section Mac.

Lemma bin_length (n : N) : n < 256 -> (length (bin n) <= 8)%nat.
Proof.
  intros Hn. unfold bin. destruct (N.eqb_spec n 0) as [->|Hz]; [simpl; lia|].
  rewrite length_map, length_rev, length_seq.
  assert (Hs : N.size n < 9).
  { apply (N.pow_lt_mono_r_iff 2); [lia|].
    pose proof (N.size_le n) as Hle. rewrite N.succ_double_spec in Hle.
    change (2 ^ 9) with 512. lia. }
  lia.
Qed.

Lemma bin_binary (n : N) : binary (bin n).
Proof.
  unfold binary, bin. destruct (n =? 0).
  - repeat constructor.
  - apply List.Forall_forall. intros c Hc. apply in_map_iff in Hc as [i [<- _]].
    destruct (N.testbit n (N.of_nat i)); auto.
Qed.

Lemma format_08b_length (n : N) : n < 256 -> length (format_08b n) = 8%nat.
Proof.
  intros Hn. pose proof (bin_length n Hn). unfold format_08b.
  rewrite length_app, repeat_length. lia.
Qed.

Lemma format_08b_binary (n : N) : binary (format_08b n).
Proof.
  unfold format_08b, binary. apply Forall_app. split; [|apply bin_binary].
  apply List.Forall_forall. intros c Hc. apply repeat_spec in Hc. auto.
Qed.

(** The digest starts with a byte value. *)
Lemma digest_first_byte (msg : list N) :
  exists b0 rest, SHA256.digest msg = b0 :: rest /\ b0 < 256.
Proof.
  unfold SHA256.digest. cbn [SHA256.be_bytes seq rev map app].
  eexists _, _. split; [reflexivity|].
  change 255 with (N.ones 8). rewrite N.land_ones.
  apply N.mod_lt. discriminate.
Qed.

Lemma mac_of_encoded (secret message : pystr) (bs : list N) :
  encode (secret ++ message) = Ok bs ->
  exists b0, b0 < 256 /\ mac secret message = Ok (format_08b b0).
Proof.
  intros He. unfold mac. rewrite He. cbn [bind].
  destruct (digest_first_byte bs) as (b0 & rest & -> & Hb).
  exists b0. split; [exact Hb|]. f_equal.
  cbn [map concat]. unfold LAMBDA.
  rewrite firstn_app, format_08b_length by exact Hb.
  rewrite firstn_all2 by (rewrite format_08b_length by exact Hb; lia).
  rewrite Nat.sub_diag. cbn. apply app_nil_r.
Qed.

Lemma mac_length (secret message m : pystr) :
  mac secret message = Ok m -> length m = LAMBDA /\ binary m.
Proof.
  intros Hm. destruct (encode (secret ++ message)) as [bs|e] eqn:He.
  - destruct (mac_of_encoded _ _ _ He) as (b0 & Hb & Hmac).
    rewrite Hmac in Hm. injection Hm as <-.
    split; [apply format_08b_length, Hb | apply format_08b_binary].
  - unfold mac in Hm. rewrite He in Hm. discriminate.
Qed.

End Mac.

(** C7 (as amended). For every secret and message whose concatenation UTF-8
    can encode, [mac] returns a string of exactly [LAMBDA] = 8 characters,
    each '0' or '1'; the result is a function of the pair (any other call
    returns the same string) and the call leaves the state of the program
    that makes it unchanged. *)
Theorem mac_returns_lambda_bits (secret message : pystr) (bs : list N) :
  encode (secret ++ message) = Ok bs ->
  exists out,
    mac secret message = Ok out /\
    length out = LAMBDA /\ LAMBDA = 8%nat /\
    binary out /\
    (forall r, mac secret message = r -> r = Ok out) /\
    (forall s, TTPProgram.lift (mac secret message) s = (Ok out, s)).
Proof.
  intros He. destruct (mac_of_encoded _ _ _ He) as (b0 & Hb & Hmac).
  exists (format_08b b0). repeat split.
  - exact Hmac.
  - apply format_08b_length, Hb.
  - apply format_08b_binary.
  - intros r <-. exact Hmac.
  - intros s. unfold TTPProgram.lift. now rewrite Hmac.
Qed.

Lemma mac_returns_lambda_bits_witness :
  exists out,
    mac SECRET_TOKEN MERCHANT_ID = Ok out /\
    length out = LAMBDA /\ LAMBDA = 8%nat /\
    binary out /\
    (forall r, mac SECRET_TOKEN MERCHANT_ID = r -> r = Ok out) /\
    (forall s, TTPProgram.lift (mac SECRET_TOKEN MERCHANT_ID) s = (Ok out, s)).
Proof.
  apply (mac_returns_lambda_bits SECRET_TOKEN MERCHANT_ID (SECRET_TOKEN ++ MERCHANT_ID)).
  vm_compute. reflexivity.
Defined.

(** C7 as stated fails: a secret that is the lone surrogate U+D800 makes
    [combined.encode()] raise, so [mac] returns no string at all. *)
Lemma mac_surrogate_raises :
  mac [0xD800] MERCHANT_ID = Raise UnicodeEncodeError /\
  ~ (forall secret message,
       exists out, mac secret message = Ok out /\ length out = LAMBDA /\ binary out).
Proof.
  assert (H : mac [0xD800] MERCHANT_ID = Raise UnicodeEncodeError)
    by (vm_compute; reflexivity).
  split; [exact H|].
  intros Hall. destruct (Hall [0xD800] MERCHANT_ID) as (out & Hout & _).
  rewrite H in Hout. discriminate.
Qed.

(** ** The measurement law *)

(** C3. For every bit and every basis, the qubit prepared for (bit, basis)
    and then measured in the same basis gives that bit, whatever the
    simulator draws, and the probability of that outcome is 1. *)
Theorem measure_prepared_same_basis (bit basis coin : bool) :
  let q := ClientProgram.prepare_qubit (str_of_bit bit) (str_of_bit basis) in
  ClientProgram.measure_qubit (str_of_bit basis) q coin = bit /\
  Qubit.prob (ClientProgram.measure_basis (str_of_bit basis) q) bit = 1%Q.
Proof.
  destruct bit, basis, coin; vm_compute; split; reflexivity.
Qed.

(** In the other basis both outcomes have probability 1/2 and the
    simulator's draw decides. *)
Lemma measure_prepared_other_basis (bit basis coin r : bool) :
  let q := ClientProgram.prepare_qubit (str_of_bit bit) (str_of_bit basis) in
  ClientProgram.measure_qubit (str_of_bit (negb basis)) q coin = coin /\
  Qubit.prob (ClientProgram.measure_basis (str_of_bit (negb basis)) q) r = (1 # 2)%Q.
Proof.
  destruct bit, basis, coin, r; vm_compute; split; reflexivity.
Qed.

(** ** The checking loop *)

Section CheckingLoop.

Variables m B kappa b : pystr.

(** The loop over any positions inside [m], [B] and [b]: it raises exactly
    when a checked position lies beyond the end of [kappa], and counts the
    checked and the matching positions otherwise. *)
Lemma check_loop (js : list nat) (acc : nat * nat) :
  Forall (fun j => (j < length m /\ j < length B /\ j < length b)%nat) js ->
  for_in js (TTPProgram.check m B kappa b) acc =
    if existsb (overrun m B kappa) js then Raise IndexError
    else Ok (fst acc + length (List.filter (matching m B kappa b) js),
             snd acc + length (List.filter (checked m B) js))%nat.
Proof.
  intros Hjs. revert acc. induction Hjs as [|j js (Hm & HB & Hb) _ IH]; intros acc.
  - destruct acc as [a c]. cbn. now rewrite !Nat.add_0_r.
  - apply lookup_lt_is_Some_2 in Hm as [mj Hmj].
    apply lookup_lt_is_Some_2 in HB as [Bj HBj].
    apply lookup_lt_is_Some_2 in Hb as [bj Hbj].
    assert (Hc : checked m B j = (mj =? Bj)) by (unfold checked; now rewrite Hmj, HBj).
    cbn [for_in existsb List.filter]. unfold matching, overrun in *.
    unfold TTPProgram.check at 1, index. rewrite Hmj, HBj, Hc. cbn [bind].
    destruct (mj =? Bj); cbn [andb].
    + destruct (kappa !! j) as [kj|] eqn:Hk; cbn [bind].
      * assert (Hlen : (length kappa <=? j)%nat = false)
          by (apply Nat.leb_gt; eapply lookup_lt_Some; eassumption).
        assert (Ha : agrees kappa b j = (kj =? bj))
          by (unfold agrees; now rewrite Hk, Hbj).
        rewrite Hbj, Hlen, Ha. cbn [bind orb].
        destruct (kj =? bj); cbn [bind]; rewrite IH;
          destruct (existsb _ js); cbn [fst snd length]; try reflexivity;
          f_equal; f_equal; lia.
      * assert (Hlen : (length kappa <=? j)%nat = true)
          by (apply Nat.leb_le; apply lookup_ge_None; assumption).
        rewrite Hlen. reflexivity.
    + cbn [bind]. rewrite IH. reflexivity.
Qed.

Lemma both_le (js : list nat) :
  (length (List.filter (matching m B kappa b) js) <= length (List.filter (checked m B) js))%nat.
Proof.
  induction js as [|j js IH]; cbn; [lia|]. unfold matching at 1.
  destruct (checked m B j), (agrees kappa b j); cbn; lia.
Qed.

(** All checked positions match exactly when the two counts are equal. *)
Lemma both_eq (js : list nat) :
  length (List.filter (matching m B kappa b) js) = length (List.filter (checked m B) js) <->
  Forall (fun j => checked m B j = true -> agrees kappa b j = true) js.
Proof.
  induction js as [|j js IH]; cbn.
  - split; [constructor | reflexivity].
  - pose proof (both_le js) as Hle. unfold matching at 1.
    destruct (checked m B j) eqn:Hc, (agrees kappa b j) eqn:Ha; cbn;
      rewrite Forall_cons; rewrite <- IH; intuition (try lia; try congruence).
Qed.

Lemma checked_pos (js : list nat) :
  (0 < length (List.filter (checked m B) js))%nat <->
  Exists (fun j => checked m B j = true) js.
Proof.
  induction js as [|j js IH]; cbn.
  - split; [lia | intros H; inversion H].
  - rewrite Exists_cons, <- IH. destruct (checked m B j); cbn; intuition (try lia; try congruence).
Qed.

End CheckingLoop.

(** ** Verify *)

Section Verify.

Variable s : TTPProgram.state.
Variable verification_msg : verification.
Variables (secret_token : pystr) (stored_token : token) (m : pystr).

#[local] Abbreviation client_id := (ver_client_id verification_msg).
#[local] Abbreviation kappa := (ver_kappa verification_msg).
#[local] Abbreviation b := (tok_b stored_token).
#[local] Abbreviation B := (tok_B stored_token).

Hypothesis Hsecret : TTPProgram.client_database s !! client_id = Some secret_token.
Hypothesis Htoken : TTPProgram.token_storage s !! client_id = Some stored_token.
Hypothesis Hmac : mac secret_token (ver_merchant_id verification_msg) = Ok m.

(** After the two lookups and the MAC, the outcome is that of the loop. *)
Lemma verify_loop :
  TTPProgram.verify verification_msg s =
    match for_in (range LAMBDA) (TTPProgram.check m B kappa b) (O, O) with
    | Ok counts =>
        let v := Verdict ((fst counts =? snd counts)%nat && (0 <? snd counts)%nat) in
        (Ok v, answered v s)
    | Raise e => (Raise e, s)
    end.
Proof.
  unfold TTPProgram.verify, TTPProgram.mbind, TTPProgram.get_secret,
    TTPProgram.get_token, TTPProgram.lift.
  rewrite Hsecret, Htoken, Hmac.
  destruct (for_in _ _ _) as [counts|e]; reflexivity.
Qed.

Hypothesis Hb : length b = LAMBDA.
Hypothesis HB : length B = LAMBDA.

Lemma range_inside :
  Forall (fun j => (j < length m /\ j < length B /\ j < length b)%nat) (range LAMBDA).
Proof.
  destruct (mac_length _ _ _ Hmac) as [Hm _].
  apply List.Forall_forall. intros j Hj. apply in_seq in Hj.
  rewrite Hm, HB, Hb. lia.
Qed.

(** With a stored token of [LAMBDA] bits and bases: an [IndexError] when a
    checked position lies beyond the cryptogram, else the verdict of the
    two counts. *)
Lemma verify_counts :
  TTPProgram.verify verification_msg s =
    if existsb (overrun m B kappa) (range LAMBDA) then (Raise IndexError, s)
    else
      let v := Verdict ((matches m B kappa b =? total_checked m B)%nat
                        && (0 <? total_checked m B)%nat) in
      (Ok v, answered v s).
Proof.
  rewrite verify_loop, (check_loop m B kappa b _ _ range_inside).
  destruct (existsb _ _); reflexivity.
Qed.

End Verify.

(** No checked position is beyond a cryptogram of [LAMBDA] or more characters. *)
Lemma no_overrun (m B kappa : pystr) :
  (LAMBDA <= length kappa)%nat -> existsb (overrun m B kappa) (range LAMBDA) = false.
Proof.
  intros Hk. apply not_true_is_false. intros He.
  apply existsb_exists in He as (j & Hj & Ho). apply in_seq in Hj.
  unfold overrun in Ho. apply andb_prop in Ho as [_ Ho]. apply Nat.leb_le in Ho. lia.
Qed.

(** Every path through [verify], in one equation. *)
Lemma verify_cases (msg : verification) (s : TTPProgram.state) :
  TTPProgram.verify msg s =
    match TTPProgram.client_database s !! ver_client_id msg with
    | None => (Raise (KeyError (ver_client_id msg)), s)
    | Some secret =>
        match TTPProgram.token_storage s !! ver_client_id msg with
        | None => (Raise (KeyError (ver_client_id msg)), s)
        | Some t =>
            match mac secret (ver_merchant_id msg) with
            | Raise e => (Raise e, s)
            | Ok m =>
                match for_in (range LAMBDA)
                        (TTPProgram.check m (tok_B t) (ver_kappa msg) (tok_b t)) (O, O) with
                | Ok counts =>
                    let v := Verdict ((fst counts =? snd counts)%nat
                                      && (0 <? snd counts)%nat) in
                    (Ok v, answered v s)
                | Raise e => (Raise e, s)
                end
            end
        end
    end.
Proof.
  unfold TTPProgram.verify, TTPProgram.mbind, TTPProgram.get_secret,
    TTPProgram.get_token, TTPProgram.lift.
  destruct (TTPProgram.client_database s !! _) as [secret|]; [|reflexivity].
  destruct (TTPProgram.token_storage s !! _) as [t|]; [|reflexivity].
  destruct (mac _ _) as [m|e]; [|reflexivity].
  destruct (for_in _ _ _) as [counts|e]; reflexivity.
Qed.

(** The state after [verify]: one more answer to the Merchant when a verdict
    was reached, the same state when an exception was raised. *)
Lemma verify_state (msg : verification) (s : TTPProgram.state) :
  snd (TTPProgram.verify msg s) =
    match fst (TTPProgram.verify msg s) with
    | Ok v => answered v s
    | Raise _ => s
    end.
Proof.
  rewrite verify_cases.
  destruct (TTPProgram.client_database s !! _) as [secret|]; [|reflexivity].
  destruct (TTPProgram.token_storage s !! _) as [t|]; [|reflexivity].
  destruct (mac _ _) as [m|e]; [|reflexivity].
  destruct (for_in _ _ _) as [counts|e]; reflexivity.
Qed.

(** The outcome of [verify] depends on the two dictionaries only. *)
Lemma verify_same_dicts (msg : verification) (s s' : TTPProgram.state) :
  TTPProgram.client_database s' = TTPProgram.client_database s ->
  TTPProgram.token_storage s' = TTPProgram.token_storage s ->
  fst (TTPProgram.verify msg s') = fst (TTPProgram.verify msg s).
Proof.
  intros Hdb Hts. rewrite !verify_cases, Hdb, Hts.
  destruct (TTPProgram.client_database s !! _) as [secret|]; [|reflexivity].
  destruct (TTPProgram.token_storage s !! _) as [t|]; [|reflexivity].
  destruct (mac _ _) as [m|e]; [|reflexivity].
  destruct (for_in _ _ _) as [counts|e]; reflexivity.
Qed.

Lemma reference_issued_eq :
  TTPProgram.issue reference_draws TTPProgram.init = (Ok reference_token, reference_issued) /\
  reference_issued =
    TTPProgram.State {[ CLIENT_ID := SECRET_TOKEN ]} {[ CLIENT_ID := reference_token ]}
                     [reference_token] [].
Proof. vm_compute. split; reflexivity. Qed.

(** C1. With the holder's secret and a stored token of [LAMBDA] bits and
    bases, Verify of a cryptogram of length [LAMBDA] answers the Merchant with
    a verdict that is accept exactly when [total_checked > 0] and
    [matches == total_checked]; when no position is checked the verdict is
    reject, and no exception is raised. *)
Theorem verify_accepts_iff_checked_all_match
    (s : TTPProgram.state) (msg : verification) (secret : pystr) (t : token) (m : pystr) :
  TTPProgram.client_database s !! ver_client_id msg = Some secret ->
  TTPProgram.token_storage s !! ver_client_id msg = Some t ->
  length (tok_b t) = LAMBDA ->
  length (tok_B t) = LAMBDA ->
  length (ver_kappa msg) = LAMBDA ->
  mac secret (ver_merchant_id msg) = Ok m ->
  exists v,
    TTPProgram.verify msg s = (Ok v, answered v s) /\
    (accepted v = true <->
       (0 < total_checked m (tok_B t))%nat /\
       matches m (tok_B t) (ver_kappa msg) (tok_b t) = total_checked m (tok_B t)) /\
    (total_checked m (tok_B t) = O -> accepted v = false).
Proof.
  intros Hsecret Htoken Hb HB Hk Hmac.
  rewrite (verify_counts s msg secret t m Hsecret Htoken Hmac Hb HB).
  rewrite no_overrun by lia.
  eexists. split; [reflexivity|]. cbn [accepted]. split.
  - rewrite andb_true_iff, Nat.eqb_eq, Nat.ltb_lt. tauto.
  - intros ->. apply andb_false_r.
Qed.

Lemma verify_accepts_iff_checked_all_match_witness :
  exists v,
    TTPProgram.verify reference_request reference_issued = (Ok v, answered v reference_issued) /\
    (accepted v = true <->
       (0 < total_checked (str "00110000") (tok_B reference_token))%nat /\
       matches (str "00110000") (tok_B reference_token) (ver_kappa reference_request)
         (tok_b reference_token) = total_checked (str "00110000") (tok_B reference_token)) /\
    (total_checked (str "00110000") (tok_B reference_token) = O -> accepted v = false).
Proof.
  apply (verify_accepts_iff_checked_all_match reference_issued reference_request
           SECRET_TOKEN reference_token (str "00110000"));
    vm_compute; reflexivity.
Defined.

(** C5. Verify for a holder identity that the SecretRegistry
    ([client_database]) or the TokenStore ([token_storage]) does not hold
    raises the dictionary's [KeyError] for that identity: no verdict, hence
    no [accepted: false], is sent to the Merchant, and the state is as before. *)
Theorem verify_unknown_holder_faults (s : TTPProgram.state) (msg : verification) :
  TTPProgram.client_database s !! ver_client_id msg = None \/
  TTPProgram.token_storage s !! ver_client_id msg = None ->
  TTPProgram.verify msg s = (Raise (KeyError (ver_client_id msg)), s) /\
  TTPProgram.sent_merchant (snd (TTPProgram.verify msg s)) = TTPProgram.sent_merchant s /\
  (forall v, fst (TTPProgram.verify msg s) <> Ok v).
Proof.
  intros Habsent.
  assert (H : TTPProgram.verify msg s = (Raise (KeyError (ver_client_id msg)), s)).
  { rewrite verify_cases.
    destruct (TTPProgram.client_database s !! _) as [secret|]; [|reflexivity].
    destruct Habsent as [Hdb|Hts]; [discriminate|]. now rewrite Hts. }
  rewrite H. repeat split. intros v. discriminate.
Qed.

(** The SecretRegistry does not know "bob"; it knows "client_alice", for
    whom no token is stored before the first Issue. *)
Lemma verify_unknown_holder_faults_witness :
  (TTPProgram.verify (Verification (str "bob") (str "11111110") MERCHANT_ID)
     reference_issued
   = (Raise (KeyError (str "bob")), reference_issued)) /\
  (TTPProgram.verify reference_request TTPProgram.init
   = (Raise (KeyError CLIENT_ID), TTPProgram.init)).
Proof.
  split.
  - apply (verify_unknown_holder_faults reference_issued
             (Verification (str "bob") (str "11111110") MERCHANT_ID)).
    left. vm_compute. reflexivity.
  - apply (verify_unknown_holder_faults TTPProgram.init reference_request).
    right. vm_compute. reflexivity.
Defined.

(** C10. Verify modifies neither [client_database] nor [token_storage], for
    every request and every outcome (accept, reject or exception); the token
    looked up stays stored under the holder identity. *)
Theorem verify_keeps_dictionaries (s : TTPProgram.state) (msg : verification) :
  TTPProgram.client_database (snd (TTPProgram.verify msg s)) = TTPProgram.client_database s /\
  TTPProgram.token_storage (snd (TTPProgram.verify msg s)) = TTPProgram.token_storage s /\
  TTPProgram.token_storage (snd (TTPProgram.verify msg s)) !! ver_client_id msg
    = TTPProgram.token_storage s !! ver_client_id msg.
Proof.
  rewrite verify_state.
  destruct (fst (TTPProgram.verify msg s)) as [v|e]; repeat split; reflexivity.
Qed.

(** The exceptions of the MAC and of the checking loop. *)
Lemma encode_raises (s : pystr) (e : exn) :
  encode s = Raise e -> e = UnicodeEncodeError.
Proof.
  induction s as [|c s IH]; cbn [encode]; [discriminate|].
  unfold utf8_char.
  repeat match goal with
         | |- context [if ?c then _ else _] => destruct c
         end; cbn [bind]; try congruence;
    destruct (encode s); cbn [bind]; try discriminate; auto.
Qed.

Lemma mac_raises (secret message : pystr) (e : exn) :
  mac secret message = Raise e -> e = UnicodeEncodeError.
Proof.
  unfold mac. destruct (encode _) eqn:He; cbn [bind]; [discriminate|].
  intros H. injection H as <-. eapply encode_raises, He.
Qed.

Lemma check_raises (m B kappa b : pystr) (js : list nat) (acc : nat * nat) (e : exn) :
  for_in js (TTPProgram.check m B kappa b) acc = Raise e -> e = IndexError.
Proof.
  revert acc. induction js as [|j js IH]; intros acc; cbn [for_in]; [discriminate|].
  unfold TTPProgram.check at 1, index.
  destruct (m !! j); cbn [bind]; [|congruence].
  destruct (B !! j); cbn [bind]; [|congruence].
  destruct (_ =? _); cbn [bind]; [|apply IH].
  destruct (kappa !! j); cbn [bind]; [|congruence].
  destruct (b !! j); cbn [bind]; [|congruence].
  destruct (_ =? _); cbn [bind]; apply IH.
Qed.

(** C9 (as amended). Issue never fails: whatever token is stored for
    "client_alice", the new token replaces it; the tokens of other holders
    and the SecretRegistry are left as they are. *)
Theorem issue_overwrites (random : nat -> bool) (s : TTPProgram.state) :
  exists s',
    TTPProgram.issue random s = (Ok (TTPProgram.generate random), s') /\
    TTPProgram.token_storage s' !! str "client_alice" = Some (TTPProgram.generate random) /\
    (forall key, key <> str "client_alice" ->
       TTPProgram.token_storage s' !! key = TTPProgram.token_storage s !! key) /\
    TTPProgram.client_database s' = TTPProgram.client_database s /\
    TTPProgram.sent_client s' = TTPProgram.sent_client s ++ [TTPProgram.generate random].
Proof.
  eexists. split; [reflexivity|]. cbn. repeat split.
  - apply lookup_insert_eq.
  - intros key Hne. apply lookup_insert_ne. congruence.
Qed.

(** C9 as stated fails: with the reference token outstanding for
    "client_alice", a second Issue succeeds and stores the new token in its
    place. *)
Lemma issue_twice_succeeds :
  TTPProgram.token_storage reference_issued !! CLIENT_ID = Some reference_token /\
  fst (TTPProgram.issue (fun _ => true) reference_issued)
    = Ok (Token (str "11111111") (str "11111111")) /\
  TTPProgram.token_storage (snd (TTPProgram.issue (fun _ => true) reference_issued))
    !! CLIENT_ID = Some (Token (str "11111111") (str "11111111")).
Proof. vm_compute. repeat split; reflexivity. Qed.

(** Only the first [LAMBDA] characters of a cryptogram are ever compared. *)
Lemma matches_firstn (m B kappa b : pystr) :
  matches m B (firstn LAMBDA kappa) b = matches m B kappa b.
Proof.
  unfold matches. f_equal. apply List.filter_ext_in. intros j Hj.
  apply in_seq in Hj. unfold matching, agrees.
  rewrite lookup_take_lt by lia. reflexivity.
Qed.

(** C8 (as amended). Verify does not check the length of the cryptogram. A
    cryptogram of [LAMBDA] or more characters gets the verdict of its first
    [LAMBDA] characters. A shorter one raises [IndexError] (no verdict) when
    some checked position lies beyond its end, and gets a verdict when none
    does. *)
Theorem verify_any_cryptogram_length
    (s : TTPProgram.state) (msg : verification) (secret : pystr) (t : token) (m : pystr) :
  TTPProgram.client_database s !! ver_client_id msg = Some secret ->
  TTPProgram.token_storage s !! ver_client_id msg = Some t ->
  length (tok_b t) = LAMBDA ->
  length (tok_B t) = LAMBDA ->
  mac secret (ver_merchant_id msg) = Ok m ->
  ((LAMBDA <= length (ver_kappa msg))%nat ->
     exists v,
       TTPProgram.verify msg s = (Ok v, answered v s) /\
       TTPProgram.verify
         (Verification (ver_client_id msg) (firstn LAMBDA (ver_kappa msg))
                       (ver_merchant_id msg)) s = (Ok v, answered v s)) /\
  ((exists j, (length (ver_kappa msg) <= j < LAMBDA)%nat /\ checked m (tok_B t) j = true) ->
     TTPProgram.verify msg s = (Raise IndexError, s)) /\
  ((forall j, (length (ver_kappa msg) <= j < LAMBDA)%nat -> checked m (tok_B t) j = false) ->
     exists v, TTPProgram.verify msg s = (Ok v, answered v s)).
Proof.
  intros Hsecret Htoken Hb HB Hmac.
  rewrite (verify_counts s msg secret t m Hsecret Htoken Hmac Hb HB).
  split; [|split].
  - intros Hk.
    rewrite (verify_counts s (Verification _ _ _) secret t m Hsecret Htoken Hmac Hb HB).
    cbn [ver_kappa]. rewrite (no_overrun _ _ _ Hk).
    rewrite no_overrun by (rewrite length_take_le; lia).
    rewrite matches_firstn. eexists. split; reflexivity.
  - intros (j & Hj & Hc).
    assert (He : existsb (overrun m (tok_B t) (ver_kappa msg)) (range LAMBDA) = true).
    { apply existsb_exists. exists j. split; [apply in_seq; lia|].
      unfold overrun. rewrite Hc. apply Nat.leb_le. lia. }
    now rewrite He.
  - intros Hnone.
    assert (He : existsb (overrun m (tok_B t) (ver_kappa msg)) (range LAMBDA) = false).
    { apply not_true_is_false. intros He.
      apply existsb_exists in He as (j & Hj & Ho). apply in_seq in Hj.
      unfold overrun in Ho. apply andb_prop in Ho as [Hc Hle]. apply Nat.leb_le in Hle.
      rewrite Hnone in Hc by lia. discriminate. }
    rewrite He. eexists. reflexivity.
Qed.

Lemma verify_any_cryptogram_length_witness :
  (exists v,
     TTPProgram.verify (Verification CLIENT_ID (str "111111100") MERCHANT_ID) reference_issued
       = (Ok v, answered v reference_issued) /\
     TTPProgram.verify reference_request reference_issued
       = (Ok v, answered v reference_issued)) /\
  TTPProgram.verify (Verification CLIENT_ID (str "1111111") MERCHANT_ID) reference_issued
    = (Raise IndexError, reference_issued).
Proof.
  split.
  - apply (verify_any_cryptogram_length reference_issued
             (Verification CLIENT_ID (str "111111100") MERCHANT_ID)
             SECRET_TOKEN reference_token (str "00110000"));
      vm_compute; try reflexivity. lia.
  - apply (verify_any_cryptogram_length reference_issued
             (Verification CLIENT_ID (str "1111111") MERCHANT_ID)
             SECRET_TOKEN reference_token (str "00110000"));
      try (vm_compute; reflexivity).
    exists 7%nat. vm_compute. repeat split; lia.
Defined.

(** C8 as stated fails: a cryptogram of nine characters is not refused, the
    verdict of its first eight is returned; and one of seven characters is
    rejected by verdict when the eighth position is not checked. *)
Lemma verify_wrong_length_gets_verdict :
  length (str "111111100") <> LAMBDA /\
  TTPProgram.verify (Verification CLIENT_ID (str "111111100") MERCHANT_ID) reference_issued
    = (Ok (Verdict true), answered (Verdict true) reference_issued) /\
  length (str "0000000") <> LAMBDA /\
  TTPProgram.verify (Verification CLIENT_ID (str "0000000") MERCHANT_ID)
    (snd (TTPProgram.issue (draws (str "10110010") (str "11001111")) TTPProgram.init))
    = (Ok (Verdict false),
       answered (Verdict false)
         (snd (TTPProgram.issue (draws (str "10110010") (str "11001111")) TTPProgram.init))).
Proof. vm_compute. repeat split; discriminate. Qed.

(** ** The Client's run *)

Lemma index_nth {A : Type} (l : list A) (j : nat) (d : A) :
  (j < length l)%nat -> index l j = Ok (nth j l d).
Proof.
  intros Hj. unfold index.
  destruct (nth_lookup_or_length l j d) as [-> | Hge]; [reflexivity | lia].
Qed.

(** A loop that appends one computed element per turn builds the list of
    these elements. *)
Lemma for_in_collect {A : Type} (step : nat -> result A) (f : nat -> A)
    (js : list nat) (acc : list A) :
  Forall (fun j => step j = Ok (f j)) js ->
  for_in js (fun acc j => x <- step j ;; Ok (acc ++ [x])) acc = Ok (acc ++ map f js).
Proof.
  intros Hjs. revert acc. induction Hjs as [|j js Hj _ IH]; intros acc; cbn [for_in map].
  - now rewrite app_nil_r.
  - rewrite Hj. cbn [bind]. rewrite IH, <- app_assoc. reflexivity.
Qed.

Lemma generate_well_formed (random : nat -> bool) :
  length (tok_b (TTPProgram.generate random)) = LAMBDA /\
  length (tok_B (TTPProgram.generate random)) = LAMBDA /\
  binary (tok_b (TTPProgram.generate random)) /\
  binary (tok_B (TTPProgram.generate random)).
Proof.
  unfold TTPProgram.generate, binary, range. cbn [tok_b tok_B].
  rewrite !length_map, !length_seq. repeat split;
    apply List.Forall_forall; intros c Hc; apply in_map_iff in Hc as (j & <- & _);
    unfold str_of_bit; destruct (random _); auto.
Qed.

Section Client.

Variable client : ClientProgram.self.
Variables (b B m : pystr) (coins : nat -> bool).

Hypothesis Hb : length b = LAMBDA.
Hypothesis HB : length B = LAMBDA.
Hypothesis Hmac : mac (ClientProgram.secret_token client) (ClientProgram.merchant_id client) = Ok m.

(** The Client's run never raises on a token of [LAMBDA] bits and bases,
    and sends the cryptogram of its measurement outcomes. *)
Lemma client_run_eq :
  ClientProgram.run client (Token b B) coins =
  Ok (Payment (ClientProgram.client_id client) (cryptogram b B m coins), m).
Proof using Hb HB Hmac.
  destruct (mac_length _ _ _ Hmac) as [Hm _].
  unfold ClientProgram.run. cbn [tok_b tok_B].
  rewrite (for_in_collect (ClientProgram.prepare b B) (held b B)).
  2:{ apply List.Forall_forall. intros j Hj. apply in_seq in Hj.
      unfold ClientProgram.prepare.
      rewrite (index_nth B j 0), (index_nth b j 0) by lia. reflexivity. }
  cbn [bind app]. rewrite Hmac. cbn [bind].
  rewrite (for_in_collect
             (ClientProgram.measure m (map (held b B) (range LAMBDA)) coins)
             (outcome b B m coins)).
  2:{ apply List.Forall_forall. intros j Hj. apply in_seq in Hj.
      unfold ClientProgram.measure, index at 1.
      unfold range. rewrite list_lookup_fmap, lookup_seq_lt by lia.
      cbn [fmap option_fmap option_map bind].
      rewrite (index_nth m j 0) by lia. reflexivity. }
  cbn [bind app]. unfold cryptogram. now rewrite map_map.
Qed.

Lemma cryptogram_length : length (cryptogram b B m coins) = LAMBDA.
Proof using Type. unfold cryptogram, range. now rewrite length_map, length_seq. Qed.

Lemma cryptogram_lookup (j : nat) :
  (j < LAMBDA)%nat ->
  cryptogram b B m coins !! j = Some (str_of_bit (outcome b B m coins j)).
Proof using Type.
  intros Hj. unfold cryptogram, range.
  rewrite list_lookup_fmap, lookup_seq_lt by exact Hj. reflexivity.
Qed.

Hypothesis Hbits : binary b.

(** At a checked position the outcome is the token's bit, whatever the
    simulator draws. *)
Lemma cryptogram_checked (j : nat) :
  (j < LAMBDA)%nat -> checked m B j = true ->
  cryptogram b B m coins !! j = b !! j.
Proof using Hb HB Hmac Hbits.
  intros Hj Hc. destruct (mac_length _ _ _ Hmac) as [Hm Hmbits].
  rewrite cryptogram_lookup by exact Hj.
  destruct (nth_lookup_or_length b j 0) as [Hbj | ?]; [|lia].
  destruct (nth_lookup_or_length B j 0) as [HBj | ?]; [|lia].
  destruct (nth_lookup_or_length m j 0) as [Hmj | ?]; [|lia].
  unfold checked in Hc. rewrite Hmj, HBj in Hc. apply N.eqb_eq in Hc.
  rewrite Hbj. f_equal. unfold outcome, held. rewrite <- Hc.
  assert (Hm1 : nth j m 0 = ch0 \/ nth j m 0 = ch1).
  { eapply (proj1 (List.Forall_forall _ m) Hmbits), nth_In. lia. }
  assert (Hb1 : nth j b 0 = ch0 \/ nth j b 0 = ch1).
  { eapply (proj1 (List.Forall_forall _ b) Hbits), nth_In. lia. }
  destruct Hm1 as [-> | ->], Hb1 as [-> | ->], (coins j); vm_compute; reflexivity.
Qed.

Lemma cryptogram_agrees (j : nat) :
  (j < LAMBDA)%nat -> checked m B j = true -> agrees (cryptogram b B m coins) b j = true.
Proof using Hb HB Hmac Hbits.
  intros Hj Hc. unfold agrees. rewrite (cryptogram_checked j Hj Hc).
  destruct (b !! j) as [bj|] eqn:Hbj.
  - apply N.eqb_refl.
  - apply lookup_ge_None in Hbj. lia.
Qed.

End Client.

(** ** Honest runs *)

Section Honest.

Variable client : ClientProgram.self.
Variables (random coins : nat -> bool) (s : TTPProgram.state) (m : pystr).

#[local] Abbreviation t := (TTPProgram.generate random).
#[local] Abbreviation s1 := (snd (TTPProgram.issue random s)).

(** The Client is the holder the TTP issues to, with the secret the TTP
    has for it, and pays the Merchant that forwards the request. *)
Hypothesis Hid : ClientProgram.client_id client = str "client_alice".
Hypothesis Hsecret :
  TTPProgram.client_database s !! str "client_alice" = Some (ClientProgram.secret_token client).
Hypothesis Hmerchant : ClientProgram.merchant_id client = MerchantProgram.MERCHANT_ID.
Hypothesis Hmac :
  mac (ClientProgram.secret_token client) (ClientProgram.merchant_id client) = Ok m.

(** The run, with the cryptogram passed through [wire], ends in [verify]'s
    loop over the wired cryptogram. *)
Lemma protocol_over_counts (wire : pystr -> pystr) :
  let kappa := wire (cryptogram (tok_b t) (tok_B t) m coins) in
  protocol_over wire client random coins s =
    if existsb (overrun m (tok_B t) kappa) (range LAMBDA) then (Raise IndexError, s1)
    else
      let v := Verdict ((matches m (tok_B t) kappa (tok_b t) =? total_checked m (tok_B t))%nat
                        && (0 <? total_checked m (tok_B t))%nat) in
      (Ok v, answered v s1).
Proof using Hid Hsecret Hmerchant Hmac.
  destruct (generate_well_formed random) as (Hb & HB & _ & _).
  intros kappa. unfold protocol_over.
  change (TTPProgram.issue random s) with (Ok t, s1). cbv beta iota.
  pose proof (client_run_eq client (tok_b t) (tok_B t) m coins Hb HB Hmac) as Hrun.
  change (Token (tok_b t) (tok_B t)) with t in Hrun. rewrite Hrun.
  cbn [MerchantProgram.forward pay_client_id pay_kappa ver_client_id ver_kappa
       ver_merchant_id].
  fold kappa. rewrite Hid.
  apply (verify_counts s1 (Verification (str "client_alice") kappa MerchantProgram.MERCHANT_ID)
           (ClientProgram.secret_token client) t m).
  - exact Hsecret.
  - cbn. apply lookup_insert_eq.
  - cbn [ver_merchant_id]. rewrite <- Hmerchant. exact Hmac.
  - exact Hb.
  - exact HB.
Qed.

End Honest.

(** C2 (as amended). In every honest run, for every sequence of measurement
    outcomes, the Client's run succeeds, every checked position [j]
    satisfies [kappa[j] == b[j]], and the verdict is accept exactly when at
    least one position is checked (it is reject when [B] differs from [m] in
    all [LAMBDA] positions). *)
Theorem honest_run_accepts_iff_some_checked
    (client : ClientProgram.self) (random coins : nat -> bool)
    (s : TTPProgram.state) (m : pystr) :
  ClientProgram.client_id client = str "client_alice" ->
  TTPProgram.client_database s !! str "client_alice" = Some (ClientProgram.secret_token client) ->
  ClientProgram.merchant_id client = MerchantProgram.MERCHANT_ID ->
  mac (ClientProgram.secret_token client) (ClientProgram.merchant_id client) = Ok m ->
  let t := TTPProgram.generate random in
  exists kappa,
    ClientProgram.run client t coins = Ok (Payment (ClientProgram.client_id client) kappa, m) /\
    (forall j, (j < LAMBDA)%nat -> checked m (tok_B t) j = true -> kappa !! j = tok_b t !! j) /\
    matches m (tok_B t) kappa (tok_b t) = total_checked m (tok_B t) /\
    protocol client random coins s =
      (Ok (Verdict (0 <? total_checked m (tok_B t))%nat),
       answered (Verdict (0 <? total_checked m (tok_B t))%nat)
                (snd (TTPProgram.issue random s))).
Proof.
  intros Hid Hsecret Hmerchant Hmac t.
  destruct (generate_well_formed random) as (Hb & HB & Hbits & _). fold t in Hb, HB, Hbits.
  exists (cryptogram (tok_b t) (tok_B t) m coins).
  assert (Hmatches : matches m (tok_B t) (cryptogram (tok_b t) (tok_B t) m coins) (tok_b t)
                     = total_checked m (tok_B t)).
  { apply both_eq. apply List.Forall_forall. intros j Hj Hc. apply in_seq in Hj.
    apply (cryptogram_agrees client); auto; lia. }
  split; [|split; [|split]].
  - apply (client_run_eq client (tok_b t) (tok_B t) m coins Hb HB Hmac).
  - intros j Hj Hc. apply (cryptogram_checked client); auto.
  - exact Hmatches.
  - unfold protocol.
    rewrite (protocol_over_counts client random coins s m Hid Hsecret Hmerchant Hmac id).
    unfold id. fold t. rewrite no_overrun by (rewrite cryptogram_length; lia).
    rewrite Hmatches, Nat.eqb_refl. reflexivity.
Qed.

Lemma honest_run_accepts_iff_some_checked_witness :
  exists kappa,
    ClientProgram.run client_program reference_token (fun _ => true)
      = Ok (Payment CLIENT_ID kappa, str "00110000") /\
    (forall j, (j < LAMBDA)%nat -> checked (str "00110000") (tok_B reference_token) j = true ->
       kappa !! j = tok_b reference_token !! j) /\
    matches (str "00110000") (tok_B reference_token) kappa (tok_b reference_token)
      = total_checked (str "00110000") (tok_B reference_token) /\
    protocol client_program reference_draws (fun _ => true) TTPProgram.init =
      (Ok (Verdict true), answered (Verdict true) reference_issued).
Proof.
  apply (honest_run_accepts_iff_some_checked client_program reference_draws (fun _ => true)
           TTPProgram.init (str "00110000")); vm_compute; reflexivity.
Defined.

(** C2 as stated fails: when the Issuer draws the bases 11001111, which
    differ from m = 00110000 everywhere, the honest run of [sim.py]'s Client
    checks no position and is rejected. *)
Lemma honest_run_rejected :
  mac SECRET_TOKEN MERCHANT_ID = Ok (str "00110000") /\
  TTPProgram.generate (draws (str "10110010") (str "11001111"))
    = Token (str "10110010") (str "11001111") /\
  total_checked (str "00110000") (str "11001111") = O /\
  fst (protocol client_program (draws (str "10110010") (str "11001111")) (fun _ => true)
         TTPProgram.init) = Ok (Verdict false) /\
  ~ (forall random coins,
       fst (protocol client_program random coins TTPProgram.init) = Ok (Verdict true)).
Proof.
  assert (H : fst (protocol client_program (draws (str "10110010") (str "11001111"))
                     (fun _ => true) TTPProgram.init) = Ok (Verdict false))
    by (vm_compute; reflexivity).
  do 3 (split; [vm_compute; reflexivity|]).
  split; [exact H|].
  intros Hall. rewrite Hall in H. discriminate.
Qed.

Lemma flip_changes (c : N) : (flip c =? c) = false.
Proof.
  unfold flip. destruct (N.eqb_spec c ch1) as [-> | Hne]; [reflexivity|].
  apply N.eqb_neq. congruence.
Qed.

(** C6. In every honest run, flipping the cryptogram bit at a checked
    position [j] before it reaches the Issuer makes Verify answer reject. *)
Theorem tampered_checked_position_rejected
    (client : ClientProgram.self) (random coins : nat -> bool)
    (s : TTPProgram.state) (m : pystr) (j : nat) :
  ClientProgram.client_id client = str "client_alice" ->
  TTPProgram.client_database s !! str "client_alice" = Some (ClientProgram.secret_token client) ->
  ClientProgram.merchant_id client = MerchantProgram.MERCHANT_ID ->
  mac (ClientProgram.secret_token client) (ClientProgram.merchant_id client) = Ok m ->
  (j < LAMBDA)%nat ->
  checked m (tok_B (TTPProgram.generate random)) j = true ->
  protocol_over (flip_at j) client random coins s =
    (Ok (Verdict false), answered (Verdict false) (snd (TTPProgram.issue random s))).
Proof.
  intros Hid Hsecret Hmerchant Hmac Hj Hc.
  set (t := TTPProgram.generate random) in *.
  destruct (generate_well_formed random) as (Hb & HB & Hbits & _). fold t in Hb, HB, Hbits.
  rewrite (protocol_over_counts client random coins s m Hid Hsecret Hmerchant Hmac (flip_at j)).
  fold t. set (kappa := cryptogram (tok_b t) (tok_B t) m coins).
  cbv zeta. rewrite no_overrun
    by (unfold flip_at; rewrite length_alter; unfold kappa; rewrite cryptogram_length; lia).
  assert (Hne : (matches m (tok_B t) (flip_at j kappa) (tok_b t) =? total_checked m (tok_B t))%nat
                = false).
  { apply Nat.eqb_neq. intros Heq. apply both_eq in Heq.
    rewrite List.Forall_forall in Heq.
    specialize (Heq j ltac:(apply in_seq; lia) Hc).
    unfold agrees, flip_at in Heq. rewrite list_lookup_alter_eq in Heq.
    unfold kappa in Heq.
    rewrite (cryptogram_checked client (tok_b t) (tok_B t) m coins Hb HB Hmac Hbits j Hj Hc)
      in Heq.
    destruct (tok_b t !! j) as [bj|]; cbn in Heq; [|discriminate].
    rewrite flip_changes in Heq. discriminate. }
  rewrite Hne. reflexivity.
Qed.

Lemma tampered_checked_position_rejected_witness :
  protocol_over (flip_at 2) client_program reference_draws (fun _ => true) TTPProgram.init =
    (Ok (Verdict false), answered (Verdict false) reference_issued).
Proof.
  apply (tampered_checked_position_rejected client_program reference_draws (fun _ => true)
           TTPProgram.init (str "00110000") 2);
    try (vm_compute; reflexivity).
  unfold LAMBDA. lia.
Defined.

(** Flipping an unchecked position of the reference run goes unnoticed. *)
Example tampered_unchecked_position_accepted :
  checked (str "00110000") (tok_B reference_token) 1 = false /\
  fst (protocol_over (flip_at 1) client_program reference_draws (fun _ => true)
         TTPProgram.init) = Ok (Verdict true).
Proof. vm_compute. split; reflexivity. Qed.

(** ** Further properties of [mac] *)

(** X1. [mac] hashes the plain concatenation of secret and message: moving
    characters across the boundary between the two gives the same MAC. *)
Theorem mac_concat_boundary (a b c : pystr) : mac (a ++ b) c = mac a (b ++ c).
Proof. unfold mac. now rewrite <- app_assoc. Qed.

Lemma utf8_char_encodable (c : N) :
  (if encodable c then exists bs, utf8_char c = Ok bs
   else utf8_char c = Raise UnicodeEncodeError).
Proof.
  unfold encodable, utf8_char.
  repeat match goal with
         | |- context [N.ltb ?x ?y] => destruct (N.ltb_spec x y)
         | |- context [N.leb ?x ?y] => destruct (N.leb_spec x y)
         end; cbn [andb orb]; try lia; eauto.
Qed.

Lemma encode_encodable (s : pystr) :
  (if forallb encodable s then exists bs, encode s = Ok bs
   else encode s = Raise UnicodeEncodeError).
Proof.
  induction s as [|c s IH]; cbn [forallb encode]; [eauto|].
  pose proof (utf8_char_encodable c) as Hc.
  destruct (encodable c); cbn [andb].
  - destruct Hc as [bs ->]. cbn [bind].
    destruct (forallb encodable s).
    + destruct IH as [rest ->]. cbn [bind]. eauto.
    + rewrite IH. reflexivity.
  - rewrite Hc. reflexivity.
Qed.

(** X2. [mac] returns a string exactly when no code point of the secret or
    of the message is a surrogate ([encodable] also refuses the numbers from
    0x110000 on, which are no code points), and raises [UnicodeEncodeError]
    exactly when one is; it raises nothing else. *)
Theorem mac_raises_iff_surrogate (secret message : pystr) :
  ((exists out, mac secret message = Ok out) <->
     forallb encodable (secret ++ message) = true) /\
  (mac secret message = Raise UnicodeEncodeError <->
     forallb encodable (secret ++ message) = false) /\
  (forall e, mac secret message = Raise e -> e = UnicodeEncodeError).
Proof.
  pose proof (encode_encodable (secret ++ message)) as He.
  unfold mac. destruct (forallb encodable (secret ++ message)).
  - destruct He as [bs ->]. cbn [bind]. repeat split; eauto; try discriminate.
  - rewrite He. cbn [bind]. repeat split; try discriminate; auto.
    + intros [out H]. discriminate.
    + intros e H. congruence.
Qed.

Lemma format_08b_bits8 (n : N) : n < 256 -> format_08b n = bits8 n.
Proof.
  intros Hn.
  assert (Hall : map format_08b (map N.of_nat (seq 0 256)) = map bits8 (map N.of_nat (seq 0 256)))
    by (vm_compute; reflexivity).
  apply (proj1 map_ext_in_iff Hall).
  apply in_map_iff. exists (N.to_nat n). split; [lia|]. apply in_seq. lia.
Qed.

(** X3. On an encodable pair, [mac] is the first byte of the SHA-256 digest
    of the UTF-8 bytes, written as eight bits, most significant first: the
    other 31 bytes of the digest are dropped. *)
Theorem mac_first_digest_byte (secret message : pystr) (bs : list N) :
  encode (secret ++ message) = Ok bs ->
  mac secret message = Ok (bits8 (hd 0 (SHA256.digest bs))).
Proof.
  intros He. unfold mac. rewrite He. cbn [bind].
  destruct (digest_first_byte bs) as (b0 & rest & -> & Hb).
  cbn [map concat hd]. f_equal. unfold LAMBDA.
  rewrite firstn_app, format_08b_length by exact Hb.
  rewrite firstn_all2 by (rewrite format_08b_length by exact Hb; lia).
  rewrite Nat.sub_diag. cbn [firstn]. rewrite app_nil_r. apply format_08b_bits8, Hb.
Qed.

Lemma mac_first_digest_byte_witness :
  mac SECRET_TOKEN MERCHANT_ID
  = Ok (bits8 (hd 0 (SHA256.digest (SECRET_TOKEN ++ MERCHANT_ID)))).
Proof.
  apply (mac_first_digest_byte SECRET_TOKEN MERCHANT_ID (SECRET_TOKEN ++ MERCHANT_ID)).
  vm_compute. reflexivity.
Defined.

(** ** Further properties of the Client's run *)

Lemma prepare_raises (b B : pystr) (j : nat) (e : exn) :
  ClientProgram.prepare b B j = Raise e -> e = IndexError.
Proof.
  unfold ClientProgram.prepare, index.
  destruct (B !! j); cbn [bind]; [|congruence].
  destruct (b !! j); cbn [bind]; congruence.
Qed.

(** A collecting loop raises as soon as one of its turns does. *)
Lemma for_in_collect_raises {A : Type} (step : nat -> result A) (e : exn)
    (js : list nat) (acc : list A) :
  (forall j e', step j = Raise e' -> e' = e) ->
  Exists (fun j => exists e', step j = Raise e') js ->
  for_in js (fun acc j => x <- step j ;; Ok (acc ++ [x])) acc = Raise e.
Proof.
  intros Hone Hex. revert acc. induction js as [|j js IH]; intros acc.
  - inversion Hex.
  - cbn [for_in]. destruct (step j) as [x|e'] eqn:Hj; cbn [bind].
    + apply IH. apply Exists_cons in Hex as [[e' He']|Hex]; [congruence|exact Hex].
    + f_equal. eapply Hone, Hj.
Qed.

(** X4. A token description with fewer than [LAMBDA] bits or fewer than
    [LAMBDA] bases makes the Client's run raise [IndexError] while it
    prepares the qubits, before the MAC is computed: whatever the secret and
    the merchant identity, nothing is sent to the Merchant. *)
Theorem client_run_short_token
    (client : ClientProgram.self) (b B : pystr) (coins : nat -> bool) :
  (length b < LAMBDA)%nat \/ (length B < LAMBDA)%nat ->
  ClientProgram.run client (Token b B) coins = Raise IndexError.
Proof.
  intros Hshort. unfold ClientProgram.run. cbn [tok_b tok_B].
  rewrite (for_in_collect_raises (ClientProgram.prepare b B) IndexError);
    [reflexivity | apply prepare_raises |].
  apply List.Exists_exists.
  destruct Hshort as [Hb | HB].
  - exists (length b). split; [apply in_seq; lia|].
    unfold ClientProgram.prepare, index.
    destruct (B !! length b); cbn [bind]; [|eauto].
    rewrite (proj2 (lookup_ge_None b (length b))) by lia. cbn [bind]. eauto.
  - exists (length B). split; [apply in_seq; lia|].
    unfold ClientProgram.prepare, index.
    rewrite (proj2 (lookup_ge_None B (length B))) by lia. cbn [bind]. eauto.
Qed.

Lemma client_run_short_token_witness :
  ClientProgram.run client_program (Token (str "1011001") (str "01101100")) (fun _ => true)
  = Raise IndexError.
Proof.
  apply (client_run_short_token client_program (str "1011001") (str "01101100")).
  left. vm_compute. lia.
Defined.

(** With at least [LAMBDA] bits and bases the two loops of the run succeed. *)
Lemma client_run_loops (client : ClientProgram.self) (b B : pystr) (coins : nat -> bool) :
  (LAMBDA <= length b)%nat -> (LAMBDA <= length B)%nat ->
  ClientProgram.run client (Token b B) coins =
    (m <- mac (ClientProgram.secret_token client) (ClientProgram.merchant_id client) ;;
     Ok (Payment (ClientProgram.client_id client) (cryptogram b B m coins), m)).
Proof.
  intros Hb HB. unfold ClientProgram.run. cbn [tok_b tok_B].
  rewrite (for_in_collect (ClientProgram.prepare b B) (held b B)).
  2:{ apply List.Forall_forall. intros j Hj. apply in_seq in Hj.
      unfold ClientProgram.prepare.
      rewrite (index_nth B j 0), (index_nth b j 0) by lia. reflexivity. }
  cbn [bind app].
  destruct (mac _ _) as [m|e] eqn:Hmac; cbn [bind]; [|reflexivity].
  destruct (mac_length _ _ _ Hmac) as [Hm _].
  rewrite (for_in_collect
             (ClientProgram.measure m (map (held b B) (range LAMBDA)) coins)
             (outcome b B m coins)).
  2:{ apply List.Forall_forall. intros j Hj. apply in_seq in Hj.
      unfold ClientProgram.measure, index at 1.
      unfold range. rewrite list_lookup_fmap, lookup_seq_lt by lia.
      cbn [fmap option_fmap option_map bind].
      rewrite (index_nth m j 0) by lia. reflexivity. }
  cbn [bind app]. unfold cryptogram. now rewrite map_map.
Qed.

Lemma cryptogram_binary (b B m : pystr) (coins : nat -> bool) :
  binary (cryptogram b B m coins).
Proof.
  unfold binary, cryptogram. apply List.Forall_forall. intros c Hc.
  apply in_map_iff in Hc as (j & <- & _). unfold str_of_bit.
  destruct (outcome b B m coins j); auto.
Qed.

(** X5. On a token description of at least [LAMBDA] bits and bases, whatever
    its characters, the Client's run raises only what [mac] raises, and
    otherwise sends its own identity with a cryptogram of exactly [LAMBDA]
    characters, each '0' or '1', and returns the [m] that [mac] gave. *)
Theorem client_run_outcome
    (client : ClientProgram.self) (b B : pystr) (coins : nat -> bool) :
  (LAMBDA <= length b)%nat -> (LAMBDA <= length B)%nat ->
  match mac (ClientProgram.secret_token client) (ClientProgram.merchant_id client) with
  | Ok m =>
      exists kappa,
        ClientProgram.run client (Token b B) coins
          = Ok (Payment (ClientProgram.client_id client) kappa, m) /\
        length kappa = LAMBDA /\ binary kappa
  | Raise e => ClientProgram.run client (Token b B) coins = Raise e
  end.
Proof.
  intros Hb HB. rewrite (client_run_loops client b B coins Hb HB).
  destruct (mac _ _) as [m|e]; cbn [bind]; [|reflexivity].
  eexists. split; [reflexivity|]. split; [apply cryptogram_length | apply cryptogram_binary].
Qed.

Lemma client_run_outcome_witness :
  ClientProgram.run (ClientProgram.Self CLIENT_ID [0xD800] MERCHANT_ID)
    (Token (str "1x110010??") (str "0110110z")) (fun _ => true)
  = Raise UnicodeEncodeError.
Proof.
  apply (client_run_outcome (ClientProgram.Self CLIENT_ID [0xD800] MERCHANT_ID)
           (str "1x110010??") (str "0110110z") (fun _ => true));
    vm_compute; lia.
Defined.

(** X6. The Client reads only the first [LAMBDA] characters of the bits and
    of the bases: a longer token description gives the run of its
    truncation. *)
Theorem client_run_truncates
    (client : ClientProgram.self) (b B : pystr) (coins : nat -> bool) :
  (LAMBDA <= length b)%nat -> (LAMBDA <= length B)%nat ->
  ClientProgram.run client (Token b B) coins =
  ClientProgram.run client (Token (firstn LAMBDA b) (firstn LAMBDA B)) coins.
Proof.
  intros Hb HB.
  rewrite (client_run_loops client b B coins Hb HB).
  rewrite (client_run_loops client (firstn LAMBDA b) (firstn LAMBDA B) coins)
    by (rewrite length_take_le; lia).
  destruct (mac _ _) as [m|e]; cbn [bind]; [|reflexivity].
  do 3 f_equal. unfold cryptogram. apply map_ext_in. intros j Hj. apply in_seq in Hj.
  unfold outcome, held. rewrite !nth_lookup, !lookup_take_lt by lia. reflexivity.
Qed.

Lemma client_run_truncates_witness :
  ClientProgram.run client_program (Token (str "10110010111") (str "011011000")) (fun _ => true)
  = ClientProgram.run client_program
      (Token (firstn LAMBDA (str "10110010111")) (firstn LAMBDA (str "011011000")))
      (fun _ => true).
Proof.
  apply (client_run_truncates client_program (str "10110010111") (str "011011000"));
    vm_compute; lia.
Defined.

(** X7. The Client takes any characters in a token description: a bit
    character counts as 1 only if it is '1', a basis character as
    computational only if it is '0'. The run on a description of at least
    [LAMBDA] characters each is the run on the description so normalised. *)
Theorem client_run_normalises_characters
    (client : ClientProgram.self) (b B : pystr) (coins : nat -> bool) :
  (LAMBDA <= length b)%nat -> (LAMBDA <= length B)%nat ->
  ClientProgram.run client (Token b B) coins =
  ClientProgram.run client
    (Token (map (fun c => str_of_bit (c =? ch1)) b)
           (map (fun c => str_of_bit (negb (c =? ch0))) B)) coins.
Proof.
  intros Hb HB.
  rewrite (client_run_loops client b B coins Hb HB).
  rewrite (client_run_loops client _ _ coins) by (rewrite length_map; lia).
  destruct (mac _ _) as [m|e]; cbn [bind]; [|reflexivity].
  do 3 f_equal. unfold cryptogram. apply map_ext_in. intros j Hj. apply in_seq in Hj.
  unfold outcome, held. do 2 f_equal.
  rewrite !nth_lookup, !list_lookup_fmap.
  destruct (nth_lookup_or_length b j 0) as [Hbj | ?]; [|lia].
  destruct (nth_lookup_or_length B j 0) as [HBj | ?]; [|lia].
  rewrite Hbj, HBj. cbn [fmap option_fmap option_map default].
  unfold ClientProgram.prepare_qubit, id.
  destruct (nth j b 0 =? ch1), (nth j B 0 =? ch0); reflexivity.
Qed.

Lemma client_run_normalises_characters_witness :
  ClientProgram.run client_program (Token (str "1x11zz10") (str "0H+0HH00")) (fun _ => true)
  = ClientProgram.run client_program
      (Token (map (fun c => str_of_bit (c =? ch1)) (str "1x11zz10"))
             (map (fun c => str_of_bit (negb (c =? ch0))) (str "0H+0HH00")))
      (fun _ => true).
Proof.
  apply (client_run_normalises_characters client_program (str "1x11zz10") (str "0H+0HH00"));
    vm_compute; lia.
Defined.

Lemma cryptogram_unchecked (b B m : pystr) (coins : nat -> bool) (j : nat) :
  length m = LAMBDA -> binary m -> (LAMBDA <= length B)%nat -> binary B ->
  (j < LAMBDA)%nat -> checked m B j = false ->
  cryptogram b B m coins !! j = Some (str_of_bit (coins j)).
Proof.
  intros Hm Hmbits HB HBbits Hj Hc.
  rewrite cryptogram_lookup by exact Hj. f_equal. f_equal.
  destruct (nth_lookup_or_length B j 0) as [HBj | ?]; [|lia].
  destruct (nth_lookup_or_length m j 0) as [Hmj | ?]; [|lia].
  unfold checked in Hc. rewrite Hmj, HBj in Hc. apply N.eqb_neq in Hc.
  assert (Hm1 : nth j m 0 = ch0 \/ nth j m 0 = ch1).
  { eapply (proj1 (List.Forall_forall _ m) Hmbits), nth_In. lia. }
  assert (HB1 : nth j B 0 = ch0 \/ nth j B 0 = ch1).
  { eapply (proj1 (List.Forall_forall _ B) HBbits), nth_In. lia. }
  unfold outcome, held, ClientProgram.measure_qubit, ClientProgram.measure_basis,
    ClientProgram.prepare_qubit.
  destruct Hm1 as [Em | Em], HB1 as [EB | EB]; rewrite Em, EB in *; try congruence;
    destruct (nth j b 0 =? ch1), (coins j); vm_compute; reflexivity.
Qed.

(** X8. At a position where the Client's basis [m[j]] differs from the
    token's basis [B[j]], the cryptogram character is the simulator's draw
    for that position, whatever the token's bit. *)
Theorem unchecked_position_is_draw
    (client : ClientProgram.self) (b B m : pystr) (coins : nat -> bool) (j : nat) :
  (LAMBDA <= length b)%nat -> (LAMBDA <= length B)%nat -> binary B ->
  mac (ClientProgram.secret_token client) (ClientProgram.merchant_id client) = Ok m ->
  (j < LAMBDA)%nat -> checked m B j = false ->
  exists kappa,
    ClientProgram.run client (Token b B) coins
      = Ok (Payment (ClientProgram.client_id client) kappa, m) /\
    kappa !! j = Some (str_of_bit (coins j)).
Proof.
  intros Hb HB HBbits Hmac Hj Hc.
  rewrite (client_run_loops client b B coins Hb HB), Hmac. cbn [bind].
  eexists. split; [reflexivity|].
  destruct (mac_length _ _ _ Hmac) as [Hm Hmbits].
  apply cryptogram_unchecked; assumption.
Qed.

Lemma unchecked_position_is_draw_witness :
  exists kappa,
    ClientProgram.run client_program reference_token (fun j => Nat.even j)
      = Ok (Payment CLIENT_ID kappa, str "00110000") /\
    kappa !! 1%nat = Some (str_of_bit (Nat.even 1)).
Proof.
  apply (unchecked_position_is_draw client_program (tok_b reference_token)
           (tok_B reference_token) (str "00110000") (fun j => Nat.even j) 1);
    try (vm_compute; reflexivity); try (vm_compute; lia).
  unfold binary. vm_compute.
  repeat (apply List.Forall_cons; [first [left; reflexivity | right; reflexivity]|]).
  apply List.Forall_nil.
Defined.

(** ** Further properties of the TTP *)

Lemma existsb_ext_in {A : Type} (f g : A -> bool) (l : list A) :
  (forall a, In a l -> f a = g a) -> existsb f l = existsb g l.
Proof.
  induction l as [|a l IH]; intros H; cbn [existsb]; [reflexivity|].
  rewrite (H a) by (left; reflexivity). rewrite IH; [reflexivity|].
  intros a' Ha'. apply H. right. exact Ha'.
Qed.

(** X9. Verify reads the cryptogram at checked positions only: two requests
    of one holder and one merchant whose cryptograms have the same character
    (or both none) at every checked position get the same verdict, or raise
    the same exception. *)
Theorem verify_reads_checked_positions_only
    (s : TTPProgram.state) (msg : verification) (kappa' secret : pystr) (t : token)
    (m : pystr) :
  TTPProgram.client_database s !! ver_client_id msg = Some secret ->
  TTPProgram.token_storage s !! ver_client_id msg = Some t ->
  length (tok_b t) = LAMBDA ->
  length (tok_B t) = LAMBDA ->
  mac secret (ver_merchant_id msg) = Ok m ->
  (forall j, (j < LAMBDA)%nat -> checked m (tok_B t) j = true ->
     kappa' !! j = ver_kappa msg !! j) ->
  fst (TTPProgram.verify (Verification (ver_client_id msg) kappa' (ver_merchant_id msg)) s)
  = fst (TTPProgram.verify msg s).
Proof.
  intros Hsecret Htoken Hb HB Hmac Hsame.
  rewrite (verify_counts s msg secret t m Hsecret Htoken Hmac Hb HB).
  rewrite (verify_counts s (Verification _ _ _) secret t m Hsecret Htoken Hmac Hb HB).
  cbn [ver_kappa].
  assert (Ho : existsb (overrun m (tok_B t) kappa') (range LAMBDA)
               = existsb (overrun m (tok_B t) (ver_kappa msg)) (range LAMBDA)).
  { apply existsb_ext_in. intros j Hj. apply in_seq in Hj. unfold overrun.
    destruct (checked m (tok_B t) j) eqn:Hc; [|reflexivity]. cbn [andb].
    specialize (Hsame j ltac:(lia) Hc).
    destruct (ver_kappa msg !! j) as [c|] eqn:Hk.
    - apply lookup_lt_Some in Hk. apply lookup_lt_Some in Hsame.
      transitivity false; [|symmetry]; apply Nat.leb_gt; lia.
    - apply lookup_ge_None in Hk. apply lookup_ge_None in Hsame.
      transitivity true; [|symmetry]; apply Nat.leb_le; lia. }
  assert (Hm : matches m (tok_B t) kappa' (tok_b t)
               = matches m (tok_B t) (ver_kappa msg) (tok_b t)).
  { unfold matches. f_equal. apply List.filter_ext_in. intros j Hj. apply in_seq in Hj.
    unfold matching, agrees.
    destruct (checked m (tok_B t) j) eqn:Hc; [|reflexivity].
    now rewrite (Hsame j ltac:(lia) Hc). }
  rewrite Ho, Hm. destruct (existsb _ _); reflexivity.
Qed.

(** Flipping the unchecked position 1 of the reference cryptogram. *)
Lemma verify_reads_checked_positions_only_witness :
  fst (TTPProgram.verify (Verification CLIENT_ID (str "10111110") MERCHANT_ID) reference_issued)
  = fst (TTPProgram.verify reference_request reference_issued).
Proof.
  apply (verify_reads_checked_positions_only reference_issued reference_request
           (str "10111110") SECRET_TOKEN reference_token (str "00110000"));
    try (vm_compute; reflexivity).
  intros j Hj Hc.
  do 8 (destruct j as [|j]; [first [discriminate Hc | reflexivity]|]).
  vm_compute in Hj. lia.
Defined.

(** X10. What Verify leaves behind: with a verdict, exactly that verdict was
    sent to the Merchant and nothing to the Client; with an exception,
    nothing was sent and the state is as before, and the exception is the
    [KeyError] of the holder identity, [UnicodeEncodeError] or [IndexError]. *)
Theorem verify_outcome (msg : verification) (s : TTPProgram.state) :
  match fst (TTPProgram.verify msg s) with
  | Ok v =>
      TTPProgram.sent_merchant (snd (TTPProgram.verify msg s))
        = TTPProgram.sent_merchant s ++ [v] /\
      TTPProgram.sent_client (snd (TTPProgram.verify msg s)) = TTPProgram.sent_client s
  | Raise e =>
      snd (TTPProgram.verify msg s) = s /\
      (e = KeyError (ver_client_id msg) \/ e = UnicodeEncodeError \/ e = IndexError)
  end.
Proof.
  rewrite verify_cases.
  destruct (TTPProgram.client_database s !! _) as [secret|]; [|cbn; auto].
  destruct (TTPProgram.token_storage s !! _) as [t|]; [|cbn; auto].
  destruct (mac _ _) as [m|e] eqn:Hm; [|apply mac_raises in Hm as ->; cbn; auto].
  destruct (for_in _ _ _) as [counts|e] eqn:Hc; [cbn; auto|].
  apply check_raises in Hc as ->. cbn. auto.
Qed.

(** [run] is [issue], then [verify] in the state [issue] reached. *)
Lemma run_eq (random : nat -> bool) (msg : verification) (s : TTPProgram.state) :
  TTPProgram.run random msg s =
    (match fst (TTPProgram.verify msg (snd (TTPProgram.issue random s))) with
     | Ok v => Ok (TTPProgram.Returned (tok_b (TTPProgram.generate random))
                     (tok_B (TTPProgram.generate random)) (accepted v))
     | Raise e => Raise e
     end,
     snd (TTPProgram.verify msg (snd (TTPProgram.issue random s)))).
Proof.
  unfold TTPProgram.run. unfold TTPProgram.mbind at 1.
  change (TTPProgram.issue random s)
    with (Ok (TTPProgram.generate random), snd (TTPProgram.issue random s)).
  cbv beta iota. unfold TTPProgram.mbind, TTPProgram.ret.
  destruct (TTPProgram.verify msg _) as [[v|e] s2]; reflexivity.
Qed.




Lemma tokens_well_formed_init : tokens_well_formed TTPProgram.init.
Proof. intros key t H. cbn in H. rewrite lookup_empty in H. discriminate. Qed.

Lemma tokens_well_formed_issue (random : nat -> bool) (s : TTPProgram.state) :
  tokens_well_formed s -> tokens_well_formed (snd (TTPProgram.issue random s)).
Proof.
  intros Hs key t. cbn. intros H.
  destruct (decide (str "client_alice" = key)) as [<- | Hne].
  - rewrite lookup_insert_eq in H. injection H as <-. apply generate_well_formed.
  - rewrite lookup_insert_ne in H by exact Hne. eapply Hs, H.
Qed.

(** X11. The tokens stored by the TTP always have [LAMBDA] bits and
    [LAMBDA] bases, each '0' or '1': [run] keeps this invariant, which holds
    when the program is created; under it, a run whose request carries a
    cryptogram of at least [LAMBDA] characters never raises [IndexError]. *)
Theorem run_keeps_tokens_well_formed
    (random : nat -> bool) (msg : verification) (s : TTPProgram.state) :
  tokens_well_formed s ->
  tokens_well_formed (snd (TTPProgram.run random msg s)) /\
  ((LAMBDA <= length (ver_kappa msg))%nat ->
   fst (TTPProgram.run random msg s) <> Raise IndexError).
Proof.
  intros Hs. apply (tokens_well_formed_issue random) in Hs.
  set (s1 := snd (TTPProgram.issue random s)) in *.
  rewrite run_eq. fold s1. cbn [fst snd]. split.
  - intros key t H. apply (Hs key t).
    pose proof (verify_state msg s1) as Hst.
    destruct (fst (TTPProgram.verify msg s1)); rewrite Hst in H; exact H.
  - intros Hk. rewrite verify_cases.
    destruct (TTPProgram.client_database s1 !! _) as [secret|]; [|discriminate].
    destruct (TTPProgram.token_storage s1 !! _) as [t|] eqn:Ht; [|discriminate].
    destruct (Hs _ _ Ht) as (Hb & HB & _ & _).
    destruct (mac _ _) as [m|e] eqn:Hm; cbn [fst].
    + destruct (mac_length _ _ _ Hm) as [Hlen _].
      rewrite check_loop.
      * rewrite no_overrun by exact Hk. discriminate.
      * apply List.Forall_forall. intros j Hj. apply in_seq in Hj.
        rewrite Hlen, HB, Hb. lia.
    + apply mac_raises in Hm as ->. discriminate.
Qed.

Lemma run_keeps_tokens_well_formed_witness :
  tokens_well_formed (snd (TTPProgram.run reference_draws reference_request TTPProgram.init)) /\
  ((LAMBDA <= length (ver_kappa reference_request))%nat ->
   fst (TTPProgram.run reference_draws reference_request TTPProgram.init) <> Raise IndexError).
Proof.
  apply (run_keeps_tokens_well_formed reference_draws reference_request TTPProgram.init).
  exact tokens_well_formed_init.
Defined.

(** X12. Whatever the request and the outcome, [run] stores the new token
    under "client_alice", sends it once to the Client and leaves
    [client_database] alone. When it returns, it returns that token's bits
    and bases with the verdict it sent, once, to the Merchant; when it
    raises, the Merchant was sent nothing. *)
Theorem run_issues_then_answers
    (random : nat -> bool) (msg : verification) (s : TTPProgram.state) :
  let t := TTPProgram.generate random in
  let r := TTPProgram.run random msg s in
  TTPProgram.token_storage (snd r) = <[str "client_alice" := t]> (TTPProgram.token_storage s) /\
  TTPProgram.client_database (snd r) = TTPProgram.client_database s /\
  TTPProgram.sent_client (snd r) = TTPProgram.sent_client s ++ [t] /\
  match fst r with
  | Ok ret =>
      TTPProgram.ret_b ret = tok_b t /\ TTPProgram.ret_B ret = tok_B t /\
      TTPProgram.sent_merchant (snd r)
        = TTPProgram.sent_merchant s ++ [Verdict (TTPProgram.ret_accepted ret)]
  | Raise _ => TTPProgram.sent_merchant (snd r) = TTPProgram.sent_merchant s
  end.
Proof.
  intros t r. unfold r. rewrite run_eq. cbn [fst snd].
  set (s1 := snd (TTPProgram.issue random s)).
  pose proof (verify_state msg s1) as Hst.
  destruct (fst (TTPProgram.verify msg s1)) as [[a]|e]; rewrite Hst;
    repeat split; reflexivity.
Qed.

(** X13. A run whose request names a holder without a secret raises the
    [KeyError] of that identity only after the token was generated, stored
    and sent to the Client. *)
Theorem run_unknown_holder
    (random : nat -> bool) (msg : verification) (s : TTPProgram.state) :
  TTPProgram.client_database s !! ver_client_id msg = None ->
  TTPProgram.run random msg s =
    (Raise (KeyError (ver_client_id msg)),
     TTPProgram.State (TTPProgram.client_database s)
       (<[str "client_alice" := TTPProgram.generate random]> (TTPProgram.token_storage s))
       (TTPProgram.sent_client s ++ [TTPProgram.generate random])
       (TTPProgram.sent_merchant s)).
Proof.
  intros Hnone. rewrite run_eq, verify_cases.
  change (TTPProgram.client_database (snd (TTPProgram.issue random s)))
    with (TTPProgram.client_database s).
  rewrite Hnone. reflexivity.
Qed.

Lemma run_unknown_holder_witness :
  TTPProgram.run reference_draws (Verification (str "bob") (str "11111110") MERCHANT_ID)
    TTPProgram.init
  = (Raise (KeyError (str "bob")), reference_issued).
Proof.
  apply (run_unknown_holder reference_draws
           (Verification (str "bob") (str "11111110") MERCHANT_ID) TTPProgram.init).
  vm_compute. reflexivity.
Defined.

(** X14. In a run, a request for "client_alice" always finds a token, the
    one just issued: when the TTP has a secret for "client_alice", the run
    raises no [KeyError]. *)
Theorem run_finds_issued_token
    (random : nat -> bool) (msg : verification) (s : TTPProgram.state) (secret : pystr) :
  TTPProgram.client_database s !! str "client_alice" = Some secret ->
  ver_client_id msg = str "client_alice" ->
  forall key, fst (TTPProgram.run random msg s) <> Raise (KeyError key).
Proof.
  intros Hsecret Hid key. rewrite run_eq, verify_cases. cbn [fst]. rewrite Hid.
  change (TTPProgram.client_database (snd (TTPProgram.issue random s)))
    with (TTPProgram.client_database s).
  rewrite Hsecret.
  replace (TTPProgram.token_storage (snd (TTPProgram.issue random s)) !! str "client_alice")
    with (Some (TTPProgram.generate random)) by (cbn; now rewrite lookup_insert_eq).
  destruct (mac _ _) as [m|e] eqn:Hm.
  - destruct (for_in _ _ _) as [c|e] eqn:Hc; cbn [fst]; [discriminate|].
    apply check_raises in Hc as ->. discriminate.
  - cbn [fst]. apply mac_raises in Hm as ->. discriminate.
Qed.

Lemma run_finds_issued_token_witness :
  fst (TTPProgram.run reference_draws reference_request TTPProgram.init)
  <> Raise (KeyError CLIENT_ID).
Proof.
  apply (run_finds_issued_token reference_draws reference_request TTPProgram.init SECRET_TOKEN);
    vm_compute; reflexivity.
Defined.

(** ** Runs of the three programs *)

Lemma forallb_same_in {A : Type} (f g : A -> bool) (l : list A) :
  (forall a, In a l -> f a = g a) -> forallb f l = forallb g l.
Proof.
  induction l as [|a l IH]; intros H; cbn [forallb]; [reflexivity|].
  rewrite (H a) by (left; reflexivity). rewrite IH; [reflexivity|].
  intros a' Ha'. apply H. right. exact Ha'.
Qed.

Lemma matches_eqb_forallb (m B kappa b : pystr) (js : list nat) :
  (length (List.filter (matching m B kappa b) js)
   =? length (List.filter (checked m B) js))%nat
  = forallb (fun j => implb (checked m B j) (agrees kappa b j)) js.
Proof.
  induction js as [|j js IH]; cbn [List.filter forallb length]; [reflexivity|].
  pose proof (both_le m B kappa b js) as Hle. unfold matching at 1.
  destruct (checked m B j), (agrees kappa b j); cbn [andb implb length]; try exact IH.
  apply Nat.eqb_neq. lia.
Qed.

(** A run with every message unaltered, for a Client that measured with
    [mc] while the TTP checks with [ms]. *)
Lemma protocol_passes (client : ClientProgram.self) (random coins : nat -> bool)
    (s : TTPProgram.state) (mc ms : pystr) :
  ClientProgram.client_id client = str "client_alice" ->
  TTPProgram.client_database s !! str "client_alice" = Some (ClientProgram.secret_token client) ->
  mac (ClientProgram.secret_token client) (ClientProgram.merchant_id client) = Ok mc ->
  mac (ClientProgram.secret_token client) MerchantProgram.MERCHANT_ID = Ok ms ->
  fst (protocol client random coins s) =
    Ok (Verdict
          (forallb (passes ms mc (tok_B (TTPProgram.generate random))
                      (tok_b (TTPProgram.generate random)) coins) (range LAMBDA)
           && (0 <? total_checked ms (tok_B (TTPProgram.generate random)))%nat)).
Proof.
  intros Hid Hsecret Hmc Hms.
  set (t := TTPProgram.generate random).
  destruct (generate_well_formed random) as (Hb & HB & Hbits & HBbits).
  fold t in Hb, HB, Hbits, HBbits.
  destruct (mac_length _ _ _ Hmc) as [Hmclen Hmcbits].
  unfold protocol, protocol_over.
  change (TTPProgram.issue random s) with (Ok t, snd (TTPProgram.issue random s)).
  cbv beta iota.
  pose proof (client_run_eq client (tok_b t) (tok_B t) mc coins Hb HB Hmc) as Hrun.
  change (Token (tok_b t) (tok_B t)) with t in Hrun. rewrite Hrun.
  cbn [MerchantProgram.forward pay_client_id pay_kappa ver_client_id ver_kappa
       ver_merchant_id]. unfold id. rewrite Hid.
  rewrite (verify_counts (snd (TTPProgram.issue random s))
             (Verification (str "client_alice") _ MerchantProgram.MERCHANT_ID)
             (ClientProgram.secret_token client) t ms);
    [ | exact Hsecret | cbn; apply lookup_insert_eq | exact Hms | exact Hb | exact HB ].
  cbn [ver_kappa]. rewrite no_overrun by (rewrite cryptogram_length; lia).
  cbn [fst]. do 3 f_equal. unfold matches, total_checked.
  rewrite matches_eqb_forallb. apply forallb_same_in.
  intros j Hj. apply in_seq in Hj. unfold passes.
  destruct (checked ms (tok_B t) j); [cbn [implb]|reflexivity].
  destruct (checked mc (tok_B t) j) eqn:Hc; cbn [orb].
  - apply (cryptogram_agrees client); auto; lia.
  - unfold agrees.
    rewrite (cryptogram_unchecked (tok_b t) (tok_B t) mc coins j) by (auto; lia).
    destruct (nth_lookup_or_length (tok_b t) j 0) as [-> | ?]; [reflexivity | lia].
Qed.

(** X15. A Client that measured for another merchant than the one that
    forwards the request (the secret, the token and all messages being
    right) is accepted exactly when some position is checked by the TTP and,
    at every position the TTP checks but the Client measured in the other
    basis, the simulator's draw happened to equal the token's bit. *)
Theorem other_merchant_needs_luck
    (client : ClientProgram.self) (random coins : nat -> bool)
    (s : TTPProgram.state) (mc ms : pystr) :
  ClientProgram.client_id client = str "client_alice" ->
  TTPProgram.client_database s !! str "client_alice" = Some (ClientProgram.secret_token client) ->
  mac (ClientProgram.secret_token client) (ClientProgram.merchant_id client) = Ok mc ->
  mac (ClientProgram.secret_token client) MerchantProgram.MERCHANT_ID = Ok ms ->
  fst (protocol client random coins s) =
    Ok (Verdict
          (forallb (passes ms mc (tok_B (TTPProgram.generate random))
                      (tok_b (TTPProgram.generate random)) coins) (range LAMBDA)
           && (0 <? total_checked ms (tok_B (TTPProgram.generate random)))%nat)).
Proof. exact (protocol_passes client random coins s mc ms). Qed.

(** A Client paying "other_shop" (m = 01111000): with the bases 11110111
    the TTP checks positions 2, 3 and 4, the Client measured position 4 in
    the other basis, and the draw decides (the token's bit there is 0). *)
Lemma other_merchant_needs_luck_witness :
  fst (protocol (ClientProgram.Self CLIENT_ID SECRET_TOKEN (str "other_shop"))
         (draws (str "10110010") (str "11110111")) (fun _ => true) TTPProgram.init)
    = Ok (Verdict false) /\
  fst (protocol (ClientProgram.Self CLIENT_ID SECRET_TOKEN (str "other_shop"))
         (draws (str "10110010") (str "11110111")) (fun _ => false) TTPProgram.init)
    = Ok (Verdict true).
Proof.
  split.
  - apply (other_merchant_needs_luck
             (ClientProgram.Self CLIENT_ID SECRET_TOKEN (str "other_shop"))
             (draws (str "10110010") (str "11110111")) (fun _ => true) TTPProgram.init
             (str "01111000") (str "00110000")); vm_compute; reflexivity.
  - apply (other_merchant_needs_luck
             (ClientProgram.Self CLIENT_ID SECRET_TOKEN (str "other_shop"))
             (draws (str "10110010") (str "11110111")) (fun _ => false) TTPProgram.init
             (str "01111000") (str "00110000")); vm_compute; reflexivity.
Defined.

(** X16. The simulation as [sim.py] sets it up, a new TTP and the Client
    "client_alice" paying "merchant_shop_xyz", always ends in a verdict, and
    the verdict is reject exactly when the bases drawn are 11001111, the
    complement of m = 00110000. *)
Theorem sim_rejected_iff_complement_bases (random coins : nat -> bool) :
  exists v,
    fst (protocol client_program random coins TTPProgram.init) = Ok v /\
    (accepted v = false <-> tok_B (TTPProgram.generate random) = str "11001111").
Proof.
  rewrite (protocol_passes client_program random coins TTPProgram.init
             (str "00110000") (str "00110000"))
    by (vm_compute; reflexivity).
  eexists. split; [reflexivity|]. cbn [accepted].
  rewrite (proj2 (forallb_forall _ _)).
  2:{ intros j _. unfold passes. destruct (checked _ _ j); reflexivity. }
  cbn [andb]. unfold TTPProgram.generate, range, LAMBDA. cbn [tok_B seq map Nat.add].
  destruct (random 8%nat), (random 9%nat), (random 10%nat), (random 11%nat),
    (random 12%nat), (random 13%nat), (random 14%nat), (random 15%nat);
    vm_compute; split; intros H; first [reflexivity | discriminate H].
Qed.
